(** * Tabular analysis engine of the Automation Impact Analyzer backend

    A shallow embedding of the analysis core of [src/server.js]
    ([inferDataTypes], [calculateNumericStats], [analyzeExcel],
    [analyzeCSV]) and the properties its specification states about it;
    then of the upload route around it (the file filter and file name of
    the upload middleware, the handler of [POST /upload], the
    error-handling middleware) and of the checks of the client in
    [src/script.js], with further properties read off the code.

    JavaScript numbers are IEEE 754 binary64 values: they are modelled by
    Rocq's primitive [float], whose operations are specified against
    [SpecFloat].  JavaScript strings are modelled by [string], one
    character per UTF-16 code unit (code units below 256).  Objects used
    as records of own data properties (a row, the [dataTypes] and
    [numericStats] maps) are modelled by association lists, when the
    order of the keys matters, and by [gmap string _] otherwise; the
    prototype chain is outside the model. *)

From Stdlib Require Import ZArith List String Ascii Bool Lia Floats.
From Stdlib Require Import Permutation Sorted Uint63.
From Stdlib Require Import DecimalString DecimalN.
From stdpp Require Import base option gmap strings.
Import ListNotations.

Local Open Scope string_scope.
Local Open Scope list_scope.
Local Open Scope Z_scope.

(** ** Values *)

Inductive value : Type :=
| VUndefined
| VNull
| VBool (b : bool)
| VNum (n : float)
| VStr (s : string).

(** Errors a computation can raise: the [TypeError] of the language, and
    the failures of the tabular loaders (a stream ['error'] event, an
    exception of [XLSX.readFile]), which carry their message. *)
Inductive exn : Type :=
| TypeError (message : string)
| LoadError (message : string).

Inductive completion (A : Type) : Type :=
| Normal (a : A)
| Throw (e : exn).
Arguments Normal {A} a.
Arguments Throw {A} e.

Definition bind {A B : Type} (c : completion A) (k : A -> completion B)
  : completion B :=
  match c with
  | Normal a => k a
  | Throw e => Throw e
  end.

Notation "'let*' x ':=' c 'in' k" := (bind c (fun x => k))
  (at level 10, x name, c at level 100, k at level 200).

(** ** Characters and strings *)

Definition code (c : ascii) : Z := Z.of_N (N_of_ascii c).

Definition is_digit (c : ascii) : bool := (48 <=? code c) && (code c <=? 57).

Definition digit_value (c : ascii) : Z := code c - 48.

(** [StrWhiteSpaceChar]: white space and line terminators
    (TAB, LF, VT, FF, CR, SP, NBSP among the code units below 256). *)
Definition is_StrWhiteSpaceChar (c : ascii) : bool :=
  let n := code c in
  ((9 <=? n) && (n <=? 13)) || (n =? 32) || (n =? 160).

Fixpoint trim_start (s : string) : string :=
  match s with
  | String c s' => if is_StrWhiteSpaceChar c then trim_start s' else s
  | EmptyString => s
  end.

Fixpoint rev_string (acc s : string) : string :=
  match s with
  | String c s' => rev_string (String c acc) s'
  | EmptyString => acc
  end.

Definition trim_end (s : string) : string :=
  rev_string EmptyString (trim_start (rev_string EmptyString s)).

Definition trim (s : string) : string := trim_end (trim_start s).

(** [String.prototype.toLowerCase] on code units below 256: the ASCII
    capitals and the Latin-1 capitals (U+00C0 to U+00DE, U+00D7 apart)
    move down by 32; every other code unit is its own lower case. *)
Definition lower_char (c : ascii) : ascii :=
  let n := code c in
  if ((65 <=? n) && (n <=? 90)) || ((192 <=? n) && (n <=? 222) && negb (n =? 215))
  then ascii_of_N (Z.to_N (n + 32))
  else c.

Fixpoint toLowerCase (s : string) : string :=
  match s with
  | String c s' => String (lower_char c) (toLowerCase s')
  | EmptyString => EmptyString
  end.

(** ** Numeric literals

    [scan_digits s] splits [s] into its longest prefix of decimal digits
    and the rest; [MV_digits] is the mathematical value of a digit
    string. *)
Fixpoint scan_digits (s : string) : string * string :=
  match s with
  | String c s' =>
      if is_digit c
      then let '(ds, rest) := scan_digits s' in (String c ds, rest)
      else (EmptyString, s)
  | EmptyString => (EmptyString, EmptyString)
  end.

Fixpoint MV_digits (acc : Z) (ds : string) : Z :=
  match ds with
  | String c ds' => MV_digits (acc * 10 + digit_value c) ds'
  | EmptyString => acc
  end.

Definition Zlength_string (s : string) : Z := Z.of_nat (String.length s).

Definition is_empty (s : string) : bool :=
  match s with EmptyString => true | _ => false end.

(** [ExponentPart], when one is present at the head of [s]: its value and
    what follows it; otherwise exponent 0 and [s] untouched. *)
Definition scan_exponent (s : string) : Z * string :=
  match s with
  | String c s1 =>
      if (code c =? 101) || (code c =? 69) then
        let '(neg, s2) :=
          match s1 with
          | String "+" r => (false, r)
          | String "-" r => (true, r)
          | _ => (false, s1)
          end in
        let '(ds, rest) := scan_digits s2 in
        if is_empty ds then (0, s)
        else ((if neg then - MV_digits 0 ds else MV_digits 0 ds), rest)
      else (0, s)
  | EmptyString => (0, s)
  end.

(** The value of an unsigned literal: [Infinity], or the decimal
    [mantissa * 10 ^ exponent]. *)
Inductive literal : Type :=
| LInfinity
| LDecimal (mantissa exponent : Z).

(** Longest prefix of [s] that is a [StrUnsignedDecimalLiteral], with the
    rest of [s]; [None] when no prefix is one. *)
Definition scan_StrUnsignedDecimalLiteral (s : string) : option (literal * string) :=
  if String.prefix "Infinity" s then Some (LInfinity, String.substring 8 (String.length s - 8) s)
  else
    let '(ip, r1) := scan_digits s in
    match r1 with
    | String "." r2 =>
        let '(fp, r3) := scan_digits r2 in
        if is_empty ip && is_empty fp then None
        else
          let '(e, r4) := scan_exponent r3 in
          Some (LDecimal (MV_digits (MV_digits 0 ip) fp) (e - Zlength_string fp), r4)
    | _ =>
        if is_empty ip then None
        else
          let '(e, r4) := scan_exponent r1 in
          Some (LDecimal (MV_digits 0 ip) e, r4)
    end.

(** Longest prefix that is a [StrDecimalLiteral]: an optional sign and an
    unsigned literal. *)
Definition scan_StrDecimalLiteral (s : string) : option (bool * literal * string) :=
  let '(neg, s1) :=
    match s with
    | String "+" r => (false, r)
    | String "-" r => (true, r)
    | _ => (false, s)
    end in
  match scan_StrUnsignedDecimalLiteral s1 with
  | Some (l, rest) => Some (neg, l, rest)
  | None => None
  end.

(** The binary64 value nearest to [m * 10 ^ e] (ties to even), computed on
    the exact integers: a product when [0 <= e], a quotient rounded once
    otherwise. *)
Definition decimal_to_SF (neg : bool) (m e : Z) : spec_float :=
  match m with
  | Z0 => S754_zero neg
  | Zpos p =>
      if 0 <=? e then binary_round prec emax neg (p * Z.to_pos (10 ^ e)) 0
      else
        let '(q, e', l) := SFdiv_core_binary prec emax (Zpos p) 0 (10 ^ (- e)) 0 in
        binary_round_aux prec emax neg q e' l
  | Zneg _ => S754_nan
  end.

Definition literal_value (neg : bool) (l : literal) : float :=
  match l with
  | LInfinity => if neg then neg_infinity else infinity
  | LDecimal m e => SF2Prim (decimal_to_SF neg m e)
  end.


(** ** Conversions of the language *)

Definition is_neg_zero (x : float) : bool := PrimFloat.Leibniz.eqb x neg_zero.
Definition is_pos_zero (x : float) : bool := PrimFloat.Leibniz.eqb x zero.

(** The binary64 value of a natural number (an array length, below 2^32
    in the language, is converted exactly). *)
Definition float_of_Z (z : Z) : float := of_uint63 (Uint63.of_Z z).
Definition float_of_nat (n : nat) : float := float_of_Z (Z.of_nat n).

(** [parseFloat] on a string: leading white space is skipped and the
    longest prefix that is a [StrDecimalLiteral] gives the value; [NaN]
    when there is none. *)
Definition parseFloat_string (s : string) : float :=
  match scan_StrDecimalLiteral (trim_start s) with
  | Some (neg, l, _) => literal_value neg l
  | None => nan
  end.

(** [parseFloat(v)] is [parseFloat] of [ToString(v)].  For a number [n]
    the string is the shortest decimal that reads back as [n], so the
    result is [n] itself, except that [-0] prints as ["0"] and reads back
    as [+0]. *)
Definition parseFloat (v : value) : float :=
  match v with
  | VStr s => parseFloat_string s
  | VNum n => if is_neg_zero n then zero else n
  | VUndefined => parseFloat_string "undefined"
  | VNull => parseFloat_string "null"
  | VBool true => parseFloat_string "true"
  | VBool false => parseFloat_string "false"
  end.

Fixpoint scan_radix_digits (radix : Z) (acc : Z) (s : string) : option Z :=
  match s with
  | EmptyString => Some acc
  | String c s' =>
      let n := code c in
      let d :=
        if (48 <=? n) && (n <=? 57) then n - 48
        else if (97 <=? n) && (n <=? 102) then n - 87
        else if (65 <=? n) && (n <=? 70) then n - 55
        else 99 in
      if d <? radix then scan_radix_digits radix (acc * radix + d) s' else None
  end.

(** [NonDecimalIntegerLiteral]: [0x], [0o] or [0b] (either case) and at
    least one digit of that radix, nothing else. *)
Definition scan_NonDecimalIntegerLiteral (s : string) : option Z :=
  match s with
  | String "0" (String c (String d ds)) =>
      let body := String d ds in
      if (code c =? 120) || (code c =? 88) then scan_radix_digits 16 0 body
      else if (code c =? 111) || (code c =? 79) then scan_radix_digits 8 0 body
      else if (code c =? 98) || (code c =? 66) then scan_radix_digits 2 0 body
      else None
  | _ => None
  end.

(** [StringToNumber]: white space is trimmed at both ends; the empty
    string is [+0]; the whole of what is left must be a numeric literal. *)
Definition StringToNumber (s : string) : float :=
  let t := trim s in
  if is_empty t then zero
  else
    match scan_NonDecimalIntegerLiteral t with
    | Some n => SF2Prim (binary_normalize prec emax n 0 false)
    | None =>
        match scan_StrDecimalLiteral t with
        | Some (neg, l, EmptyString) => literal_value neg l
        | _ => nan
        end
    end.

Definition ToNumber (v : value) : float :=
  match v with
  | VUndefined => nan
  | VNull => zero
  | VBool true => one
  | VBool false => zero
  | VNum n => n
  | VStr s => StringToNumber s
  end.

(** The global [isNaN] and [isFinite].  [isNaN] is only applied to
    numbers in the source. *)
Definition isNaN (x : float) : bool := is_nan x.
Definition isFinite (v : value) : bool := is_finite (ToNumber v).

Definition typeof_boolean (v : value) : bool :=
  match v with VBool _ => true | _ => false end.

(** The method call [v.toLowerCase()]: defined on strings; a number or a
    boolean has no such method and the call raises a [TypeError], as does
    reading the property of [undefined] or [null]. *)
Definition toLowerCase_TypeError : exn :=
  TypeError "sampleValue.toLowerCase is not a function".

Definition call_toLowerCase (v : value) : completion string :=
  match v with
  | VStr s => Normal (toLowerCase s)
  | VUndefined | VNull => Throw (TypeError "Cannot read properties of undefined")
  | VBool _ | VNum _ => Throw toLowerCase_TypeError
  end.

(** ** Rows

    A row is a record: its own properties in the order [Object.keys]
    lists them.  Reading a property that is missing gives [undefined]. *)
Definition row : Type := list (string * value).

Fixpoint get (r : row) (k : string) : value :=
  match r with
  | [] => VUndefined
  | (k', v) :: r' => if String.eqb k' k then v else get r' k
  end.

Definition Object_keys (r : row) : list string := List.map fst r.

(** [data[0]?.[column]] *)
Definition first_row_value (data : list row) (column : string) : value :=
  match data with
  | [] => VUndefined
  | r :: _ => get r column
  end.

(** ** Type inference: [inferDataTypes] *)

Inductive dataType : Type := unknown | number | boolean | date | string_.

(** [columns.forEach(f)] for a callback that updates a state and may
    raise: the first exception ends the loop. *)
Fixpoint forEach {A S : Type} (f : S -> A -> completion S) (l : list A) (s : S)
  : completion S :=
  match l with
  | [] => Normal s
  | a :: l' => let* s' := f s a in forEach f l' s'
  end.

Section Engine.

(** [Date.parse(v)].  It converts [v] to a string and reads a date in
    it; outside the ISO format what it accepts is up to the engine, so
    it is a parameter of the model. *)
Variable Date_parse : value -> float.

(** [typeof v === 'boolean' || v.toLowerCase() === 'true'
     || v.toLowerCase() === 'false'], left to right. *)
Definition looks_boolean (sampleValue : value) : completion bool :=
  if typeof_boolean sampleValue then Normal true
  else
    let* l1 := call_toLowerCase sampleValue in
    if String.eqb l1 "true" then Normal true
    else
      let* l2 := call_toLowerCase sampleValue in
      Normal (String.eqb l2 "false").

(** The body of the loop of [inferDataTypes] for one sample. *)
Definition inferType (sampleValue : value) : completion dataType :=
  match sampleValue with
  | VUndefined | VNull => Normal unknown
  | _ =>
      if negb (isNaN (parseFloat sampleValue)) && isFinite sampleValue
      then Normal number
      else
        let* b := looks_boolean sampleValue in
        if b then Normal boolean
        else if negb (isNaN (Date_parse sampleValue)) then Normal date
        else Normal string_
  end.

Definition infer_step (data : list row) (dataTypes : gmap string dataType)
           (column : string) : completion (gmap string dataType) :=
  let* t := inferType (first_row_value data column) in
  Normal (<[column := t]> dataTypes).

Definition inferDataTypes (data : list row) (columns : list string)
  : completion (gmap string dataType) :=
  forEach (infer_step data) columns ∅.

End Engine.

(** ** Numeric statistics: [calculateNumericStats] *)

(** [values.reduce((a, b) => a + b, 0)] *)
Definition reduce_sum (values : list float) : float :=
  fold_left PrimFloat.add values zero.

(** [Math.min(...values)]: starting from [+Infinity]; a [NaN] argument
    gives [NaN]; [-0] is below [+0].  (The bound an engine puts on the
    number of arguments of a call is outside the model.) *)
Fixpoint Math_min_from (lowest : float) (values : list float) : float :=
  match values with
  | [] => lowest
  | x :: rest =>
      if is_nan x then nan
      else
        let lowest := if is_neg_zero x && is_pos_zero lowest then neg_zero else lowest in
        let lowest := if PrimFloat.ltb x lowest then x else lowest in
        Math_min_from lowest rest
  end.

Definition Math_min (values : list float) : float := Math_min_from infinity values.

(** [Math.max(...values)]: starting from [-Infinity]; [+0] is above [-0]. *)
Fixpoint Math_max_from (highest : float) (values : list float) : float :=
  match values with
  | [] => highest
  | x :: rest =>
      if is_nan x then nan
      else
        let highest := if is_pos_zero x && is_neg_zero highest then zero else highest in
        let highest := if PrimFloat.ltb highest x then x else highest in
        Math_max_from highest rest
  end.

Definition Math_max (values : list float) : float := Math_max_from neg_infinity values.

(** [[...values].sort((a, b) => a - b)].  The comparator's result [v] is
    read as: [v < 0], [a] first; [v > 0], [b] first; zero or [NaN], the
    two compare equal.  The sort of the language is stable, and for a
    comparator that is a consistent ordering of the elements the sorted
    array is determined: it is what a stable insertion sort returns. *)
Definition comparefn (a b : float) : float := PrimFloat.sub a b.

Fixpoint sort_insert (x : float) (sorted : list float) : list float :=
  match sorted with
  | [] => [x]
  | y :: rest =>
      if PrimFloat.ltb zero (comparefn y x) then x :: sorted
      else y :: sort_insert x rest
  end.

Definition sort (values : list float) : list float :=
  fold_left (fun sorted x => sort_insert x sorted) values [].

(** [Math.floor]: the greatest integer that is not above [x]; zeros,
    infinities and [NaN] are returned as they are. *)
Definition SFfloor (x : spec_float) : spec_float :=
  match x with
  | S754_finite s m e =>
      if 0 <=? e then x
      else
        let q := Z.shiftr (Zpos m) (- e) in
        let n := if s then (if Z.shiftl q (- e) =? Zpos m then - q else - (q + 1)) else q in
        binary_normalize prec emax n 0 false
  | _ => x
  end.

Definition Math_floor (x : float) : float := SF2Prim (SFfloor (Prim2SF x)).

(** The integer a number denotes, when it is one. *)
Definition SFinteger_value (x : spec_float) : option Z :=
  match x with
  | S754_zero _ => Some 0
  | S754_finite s m e =>
      if 0 <=? e then Some (cond_Zopp s (Z.shiftl (Zpos m) e))
      else
        let q := Z.shiftr (Zpos m) (- e) in
        if Z.shiftl q (- e) =? Zpos m then Some (cond_Zopp s q) else None
  | _ => None
  end.

Definition integer_value (x : float) : option Z := SFinteger_value (Prim2SF x).

(** [sorted[i]] for a number [i].  The source reads only at indices inside
    the array (see [percentile_index_in_range] and
    [column_stats_percentiles]); outside of it the element is
    [undefined], which this model renders as [NaN]. *)
Definition at_index (sorted : list float) (i : float) : float :=
  match integer_value i with
  | Some z => if 0 <=? z then nth (Z.to_nat z) sorted nan else nan
  | None => nan
  end.

Module Stats.
Record t : Type := mk {
  count : nat;
  mean : float;
  min : float;
  max : float;
  sum : float;
  median : float;
  q1 : float;
  q3 : float
}.
End Stats.

(** [data.map(row => parseFloat(row[column])).filter(val => !isNaN(val))] *)
Definition numeric_values (data : list row) (column : string) : list float :=
  List.filter (fun val => negb (isNaN val))
    (List.map (fun r => parseFloat (get r column)) data).

(** The record built for a column with the non-empty subset [values]. *)
Definition column_stats (values : list float) : Stats.t :=
  let sorted := sort values in
  let sorted_length := float_of_nat (List.length sorted) in
  {| Stats.count := List.length values;
     Stats.mean := PrimFloat.div (reduce_sum values) (float_of_nat (List.length values));
     Stats.min := Math_min values;
     Stats.max := Math_max values;
     Stats.sum := reduce_sum values;
     Stats.median := at_index sorted (Math_floor (PrimFloat.div sorted_length 2%float));
     Stats.q1 := at_index sorted (Math_floor (PrimFloat.mul sorted_length 0.25%float));
     Stats.q3 := at_index sorted (Math_floor (PrimFloat.mul sorted_length 0.75%float)) |}.

(** The body of the loop of [calculateNumericStats] for one column. *)
Definition stats_step (data : list row) (stats : gmap string Stats.t)
           (column : string) : gmap string Stats.t :=
  let values := numeric_values data column in
  if (0 <? List.length values)%nat
  then <[column := column_stats values]> stats
  else stats.

Definition calculateNumericStats (data : list row) (columns : list string)
  : gmap string Stats.t :=
  fold_left (stats_step data) columns ∅.

(** ** The orchestrators: [analyzeExcel] and [analyzeCSV] *)

(** The object the analysis returns.  The result for an empty table has
    no [dataTypes] and no [numericStats] property: [None]. *)
Record AnalysisResult : Type := {
  rows : nat;
  columns : nat;
  columnNames : list string;
  dataTypes : option (gmap string dataType);
  numericStats : option (gmap string Stats.t);
  preview : list row
}.

(** An event of the CSV parser the file is piped into, and the state of
    the promise [analyzeCSV] returns.  An exception raised inside a
    handler is not a rejection of the promise: it escapes uncaught.  (The
    handlers are those of the parser; the file stream itself has none.) *)
Inductive stream_event : Type :=
| Data (data : row)
| End
| Error (e : exn).

Inductive promise : Type :=
| Pending
| Fulfilled (r : AnalysisResult)
| Rejected (e : exn)
| Uncaught (e : exn).

Section Orchestrator.

Variable Date_parse : value -> float.

(** [XLSX.utils.sheet_to_json] of the first sheet of [XLSX.readFile]:
    the rows of the sheet, or the exception of the reader. *)
Variable XLSX_load : string -> completion (list row).

(** What both orchestrators do with the loaded rows. *)
Definition analyzeRows (results : list row) : completion AnalysisResult :=
  match results with
  | [] =>
      Normal {| rows := 0; columns := 0; preview := []; columnNames := [];
                dataTypes := None; numericStats := None |}
  | first :: _ =>
      let columnNames := Object_keys first in
      let numericStats := calculateNumericStats results columnNames in
      let* dataTypes := inferDataTypes Date_parse results columnNames in
      Normal {| rows := List.length results;
                columns := List.length columnNames;
                columnNames := columnNames;
                dataTypes := Some dataTypes;
                numericStats := Some numericStats;
                preview := firstn 5 results |}
  end.

Definition analyzeExcel (filePath : string) : completion AnalysisResult :=
  let* results := XLSX_load filePath in
  analyzeRows results.

(** [analyzeCSV]: ['data'] events push rows onto [results]; ['end']
    resolves the promise with the analysis of [results]; ['error']
    rejects it.  The first of ['end'] and ['error'] decides. *)
Fixpoint analyzeCSV_on (results : list row) (events : list stream_event) : promise :=
  match events with
  | [] => Pending
  | Data data :: events' => analyzeCSV_on (results ++ [data]) events'
  | End :: _ =>
      match analyzeRows results with
      | Normal r => Fulfilled r
      | Throw e => Uncaught e
      end
  | Error e :: _ => Rejected e
  end.

Definition analyzeCSV (events : list stream_event) : promise :=
  analyzeCSV_on [] events.

End Orchestrator.

(** ** The upload route

    The code of [src/server.js] around the analysis: the file name and
    the file filter of the upload middleware, the handler of
    [POST /upload] and the error-handling middleware; and, of
    [src/script.js], the check of the file name and the message the
    client shows for a response that is not ok.  Requests are handled
    one after the other: the disk changes only through the upload
    middleware, the handler and the timers it sets. *)

(** [ToString] of a number that is a non-negative integer below [10^21]
    (a time value, a status code): its decimal digits. *)
Definition ToString_N (n : N) : string := NilEmpty.string_of_uint (N.to_uint n).

(** An error object as the route sees it: what the analysis raised, a
    plain [new Error(message)], an error of [fs] with its code, or a
    [MulterError] with its code. *)
Inductive route_error : Type :=
| AnalysisError (e : exn)
| PlainError (message : string)
| SystemError (code message : string)
| MulterError (code message : string).

(** [error.message] *)
Definition error_message (error : route_error) : string :=
  match error with
  | AnalysisError (TypeError message) => message
  | AnalysisError (LoadError message) => message
  | PlainError message => message
  | SystemError _ message => message
  | MulterError _ message => message
  end.

(** Statements that may raise a [route_error]. *)
Inductive result (A : Type) : Type :=
| Ok (a : A)
| Raise (error : route_error).
Arguments Ok {A} a.
Arguments Raise {A} error.

(** [filename] of the disk storage: [Date.now() + '-' + file.originalname],
    for the time value [now] of the clock. *)
Definition filename (now : N) (originalname : string) : string :=
  (ToString_N now ++ "-" ++ originalname)%string.

Definition allowedTypes : list string := [".csv"; ".xlsx"; ".xls"].

(** [array.includes(s)] on strings. *)
Definition includes (array : list string) (s : string) : bool :=
  existsb (String.eqb s) array.

(** What [fileFilter] passes to its callback: [cb(null, true)] or
    [cb(new Error(...))]. *)
Inductive filter_decision : Type :=
| Accept
| Refuse (error : route_error).

(** The file of a request after the upload middleware: [req.file]. *)
Record file : Type := {
  originalname : string;
  path : string
}.

(** The object given to [res.json], and the response. *)
Inductive body : Type :=
| ErrorBody (error : string) (details : option string)
| AnalysisBody (message filename : string) (analysisResult : AnalysisResult).

Record response : Type := {
  status : N;
  json : body
}.

(** The files of the disk and the timers that are pending.  The one
    callback the source schedules removes a file if it is there: a
    pending timer is the path of that file. *)
Record world : Type := {
  files : gset string;
  timers : list string
}.

Definition existsSync (p : string) (w : world) : bool := bool_decide (p ∈ files w).

(** [fs.unlinkSync(p)]: removes the file, and raises [ENOENT] when there
    is none. *)
Definition unlinkSync (p : string) (w : world) : result world :=
  if existsSync p w
  then Ok {| files := files w ∖ {[p]}; timers := timers w |}
  else Raise (SystemError "ENOENT"
                ("ENOENT: no such file or directory, unlink '" ++ p ++ "'")%string).

(** [setTimeout(() => { if (fs.existsSync(p)) fs.unlinkSync(p) }, 5000)] *)
Definition setTimeout_cleanup (p : string) (w : world) : world :=
  {| files := files w; timers := timers w ++ [p] |}.

(** The callback of such a timer, when it fires. *)
Definition cleanup (p : string) (w : world) : result world :=
  if existsSync p w then unlinkSync p w else Ok w.

(** The pending timers fire, in the order they were set. *)
Fixpoint fire (pending : list string) (w : world) : result world :=
  match pending with
  | [] => Ok w
  | p :: pending' =>
      match cleanup p w with
      | Ok w' => fire pending' w'
      | Raise error => Raise error
      end
  end.

Definition fire_timers (w : world) : result world :=
  fire (timers w) {| files := files w; timers := [] |}.

(** How a run of the handler ends: with a response; suspended at an
    [await] on a promise that is still pending, having sent nothing; or
    with an exception that nothing catches, having sent nothing. *)
Inductive outcome : Type :=
| Responded (r : response)
| Waiting
| Escaped (error : route_error).

(** The error-handling middleware,
    [app.use((error, req, res, next) => ...)]. *)
Definition error_middleware (error : route_error) : response :=
  match error with
  | MulterError code _ =>
      if String.eqb code "LIMIT_FILE_SIZE"
      then {| status := 400; json := ErrorBody "File too large. Maximum size is 10MB." None |}
      else {| status := 500; json := ErrorBody (error_message error) None |}
  | _ => {| status := 500; json := ErrorBody (error_message error) None |}
  end.

(** The [catch] block of the handler: the upload is removed if it is
    there, and the error is reported. *)
Definition catch_block (req_file : option file) (error : route_error) (w : world)
  : outcome * world :=
  let cleaned :=
    match req_file with
    | Some f => if existsSync (path f) w then unlinkSync (path f) w else Ok w
    | None => Ok w
    end in
  match cleaned with
  | Ok w' =>
      (Responded {| status := 500;
                    json := ErrorBody "Failed to analyze file" (Some (error_message error)) |},
       w')
  | Raise error' => (Escaped error', w)
  end.

(** The end of the [try] block: the response, then the timer. *)
Definition respond_analysis (f : file) (analysisResult : AnalysisResult) (w : world)
  : outcome * world :=
  (Responded {| status := 200;
                json := AnalysisBody "File analyzed successfully" (originalname f)
                          analysisResult |},
   setTimeout_cleanup (path f) w).




Section Route.

(** [path.extname] of the platform. *)
Variable path_extname : string -> string.

Variable Date_parse : value -> float.
Variable XLSX_load : string -> completion (list row).

(** The events of the CSV parser the file at a path is piped into. *)
Variable CSV_events : string -> list stream_event.

Definition fileFilter (originalname : string) : filter_decision :=
  let ext := toLowerCase (path_extname originalname) in
  if includes allowedTypes ext then Accept
  else Refuse (PlainError "Invalid file type. Please upload CSV or Excel files.").

(** The handler of [POST /upload], on the request the upload middleware
    hands over.  [await analyzeCSV(filePath)] resumes with the result of
    a fulfilled promise and raises the reason of a rejected one; an
    exception raised inside the stream handler reaches nobody. *)
Definition upload_handler (req_file : option file) (w : world) : outcome * world :=
  match req_file with
  | None => (Responded {| status := 400; json := ErrorBody "No file uploaded" None |}, w)
  | Some f =>
      let filePath := path f in
      let fileExt := toLowerCase (path_extname (originalname f)) in
      if String.eqb fileExt ".csv" then
        match analyzeCSV Date_parse (CSV_events filePath) with
        | Fulfilled analysisResult => respond_analysis f analysisResult w
        | Rejected e => catch_block req_file (AnalysisError e) w
        | Pending => (Waiting, w)
        | Uncaught e => (Escaped (AnalysisError e), w)
        end
      else if String.eqb fileExt ".xlsx" || String.eqb fileExt ".xls" then
        match analyzeExcel Date_parse XLSX_load filePath with
        | Normal analysisResult => respond_analysis f analysisResult w
        | Throw e => catch_block req_file (AnalysisError e) w
        end
      else
        match unlinkSync filePath w with
        | Ok w' =>
            (Responded {| status := 400; json := ErrorBody "Unsupported file format" None |},
             w')
        | Raise error => catch_block req_file error w
        end
  end.



End Route.

(** The client, on a response that is not ok: the message it shows is
    [errorData.error || errorData.details || `Server error: ${response.status}`],
    read on the parsed body.  [a || b] is [a] when [a] is truthy, and a
    string is truthy when it is not empty. *)
Definition response_ok (r : response) : bool :=
  ((200 <=? status r) && (status r <=? 299))%N.

Definition js_or (a : option string) (b : string) : string :=
  match a with
  | Some s => if is_empty s then b else s
  | None => b
  end.

Definition errorData_error (b : body) : option string :=
  match b with
  | ErrorBody error _ => Some error
  | AnalysisBody _ _ _ => None
  end.

Definition errorData_details (b : body) : option string :=
  match b with
  | ErrorBody _ details => details
  | AnalysisBody _ _ _ => None
  end.

Definition shown_message (r : response) : string :=
  js_or (errorData_error (json r))
    (js_or (errorData_details (json r)) ("Server error: " ++ ToString_N (status r))%string).

(** [s.endsWith(searchString)] *)
Definition endsWith (s searchString : string) : bool :=
  let len := String.length s in
  let searchLength := String.length searchString in
  (searchLength <=? len)%nat &&
  String.eqb (substring (len - searchLength) searchLength s) searchString.

(** The check of the client on the name of the file, before it uploads
    it. *)
Definition client_accepts (name : string) : bool :=
  endsWith (toLowerCase name) ".csv" ||
  endsWith (toLowerCase name) ".xlsx" ||
  endsWith (toLowerCase name) ".xls".

(** ** Definitions used by the proofs

    [scaled x] is the value of [x] in units of [2^-1074], the least
    positive binary64 number: an integer for every finite value.  The
    infinities are placed just outside the finite range. *)
Definition scaled_infinity : Z := 2 ^ 2098.

Definition scaled (x : spec_float) : Z :=
  match x with
  | S754_zero _ => 0
  | S754_infinity s => cond_Zopp s scaled_infinity
  | S754_nan => 0
  | S754_finite s m e => cond_Zopp s (Zpos m * 2 ^ (e + 1074))
  end.

Definition ford (x : float) : Z := scaled (Prim2SF x).

Definition is_nan_SF (x : spec_float) : bool :=
  match x with S754_nan => true | _ => false end.

Definition SFpositive (x : spec_float) : bool := SFltb (S754_zero false) x.

(** [norm s z E] is the binary64 representation of [(-1)^s * z * 2^E] for
    a [z] of at most 53 bits, in the range of the normal numbers. *)
Definition nm (z : positive) : positive :=
  Z.to_pos (Zpos z * 2 ^ (53 - Zpos (digits2_pos z))).

Definition norm (s : bool) (z : positive) (E : Z) : spec_float :=
  S754_finite s (nm z) (E - (53 - Zpos (digits2_pos z))).

(** The order of the numbers that are not [NaN]. *)
Definition fle (x y : float) : Prop := ford x <= ford y.

Definition no_nan (l : list float) : Prop := Forall (fun v => is_nan v = false) l.

(** A number that is [NaN] or infinite. *)
Definition nonfinite_number (v : value) : bool :=
  match v with
  | VNum n => negb (is_finite n)
  | _ => false
  end.

(** The decision order of the specification, in its words, first match
    wins: absent gives [unknown]; a value that parses as a finite number
    gives [number]; a boolean, or a string equal to ["true"] or ["false"]
    whatever the case, gives [boolean]; a value that parses as a valid
    date gives [date]; otherwise [string]. *)
Definition parses_as_finite_number (v : value) : bool :=
  negb (isNaN (parseFloat v)) && isFinite v.

Definition is_true_or_false (v : value) : bool :=
  match v with
  | VStr s => String.eqb (toLowerCase s) "true" || String.eqb (toLowerCase s) "false"
  | _ => false
  end.

Definition spec_type (Date_parse : value -> float) (v : value) : dataType :=
  match v with
  | VUndefined | VNull => unknown
  | _ =>
      if parses_as_finite_number v then number
      else if typeof_boolean v || is_true_or_false v then boolean
      else if negb (isNaN (Date_parse v)) then date
      else string_
  end.

Definition row_inferable (r : row) : Prop :=
  forall c, In c (Object_keys r) -> nonfinite_number (get r c) = false.

(** The rows of the CSV parser hold strings only. *)
Definition string_cells (r : row) : Prop :=
  forall k v, In (k, v) r -> exists s, v = VStr s.

Definition empty_result : AnalysisResult :=
  {| rows := 0; columns := 0; preview := []; columnNames := [];
     dataTypes := None; numericStats := None |}.

#[global] Instance In_string_dec (c : string) (l : list string) : Decision (In c l) :=
  in_dec String.string_dec c l.

(** The numbers that are neither [NaN] nor infinite. *)
Definition is_finite_SF (x : spec_float) : bool :=
  match x with
  | S754_zero _ | S754_finite _ _ _ => true
  | _ => false
  end.

(** The representation of the integer [n], when [|n| < 2^53]. *)
Definition SFint (n : Z) (x : spec_float) : Prop :=
  match n with
  | Z0 => exists s, x = S754_zero s
  | Zpos p => x = norm false p 0
  | Zneg p => x = norm true p 0
  end.

(** ** Definitions used by the statements *)

Definition fleb (a b : float) : Prop := PrimFloat.leb a b = true.

Definition data_one_to_five : list row :=
  [ [("x", VStr "3")]; [("x", VStr "1")]; [("x", VStr "n/a")];
    [("x", VStr "2")]; [("x", VNum 5)]; [("x", VStr "4.0")] ].

Definition data_infinity : list row := [ [("x", VStr "Infinity")] ].

Definition data_nan_number : list row := [ [("n", VNum nan)] ].
Definition data_infinite_number : list row := [ [("id", VStr "7"); ("x", VNum infinity)] ].

(** An engine whose [Date.parse] accepts the ISO date [2024-01-01] and
    nothing else of what the examples use. *)
Definition Date_parse_iso_only (v : value) : float :=
  match v with
  | VStr "2024-01-01" => 1704067200000%float
  | _ => nan
  end.

Definition no_rows_loader (_ : string) : completion (list row) := Normal [].

Definition failing_loader (_ : string) : completion (list row) :=
  Throw (LoadError "File is password-protected").

Definition sample_rows : list row :=
  [ [("name", VStr "ada"); ("age", VStr "36")];
    [("name", VStr "bob"); ("age", VStr EmptyString)];
    [("name", VStr "cy"); ("age", VStr "41")];
    [("name", VStr "di"); ("age", VStr "29")];
    [("name", VStr "ed"); ("age", VStr "n/a")];
    [("name", VStr "flo"); ("age", VStr "52")] ].

Definition sample_loader (_ : string) : completion (list row) := Normal sample_rows.



(** The [dataTypes] map of a result; a result without the property has no
    key. *)
Definition dataTypes_of (r : AnalysisResult) : gmap string dataType :=
  default ∅ (dataTypes r).

Definition full_result (results : list row) (columnNames : list string)
           (dt : gmap string dataType) : AnalysisResult :=
  {| rows := List.length results;
     columns := List.length columnNames;
     columnNames := columnNames;
     dataTypes := Some dt;
     numericStats := Some (calculateNumericStats results columnNames);
     preview := firstn 5 results |}.

(** Every column of the result has its type, and only the columns have
    one. *)
Definition columns_typed (r : AnalysisResult) : Prop :=
  List.length (columnNames r) = columns r /\
  (forall c, In c (columnNames r) <-> is_Some (dataTypes_of r !! c)) /\
  (forall c t t', dataTypes_of r !! c = Some t -> dataTypes_of r !! c = Some t' -> t = t').

(** The preview of the result for the rows [results] is their first
    five. *)
Definition preview_of (results : list row) (r : AnalysisResult) : Prop :=
  rows r = List.length results /\
  preview r = firstn 5 results /\
  List.length (preview r) = Nat.min 5 (rows r).

(** The [numericStats] map of a result; a result without the property has
    no key. *)
Definition numericStats_of (r : AnalysisResult) : gmap string Stats.t :=
  default ∅ (numericStats r).

(** The statistics of a result fit its other fields: a column with
    statistics is one of the columns, it has a type, and its [count] is at
    least 1 and at most the number of rows; a column typed [number] has
    statistics. *)
Definition statistics_fit (r : AnalysisResult) : Prop :=
  forall c,
    (forall s, numericStats_of r !! c = Some s ->
               In c (columnNames r) /\
               is_Some (dataTypes_of r !! c) /\
               (1 <= Stats.count s <= rows r)%nat) /\
    (dataTypes_of r !! c = Some number -> is_Some (numericStats_of r !! c)).

(** [a === b] on numbers. *)
Definition same_number (a b : float) : Prop := PrimFloat.eqb a b = true.

(** The statistics that do not depend on the order of the rows. *)
Definition same_order_statistics (r r' : Stats.t) : Prop :=
  Stats.count r = Stats.count r' /\
  same_number (Stats.min r) (Stats.min r') /\
  same_number (Stats.max r) (Stats.max r') /\
  same_number (Stats.median r) (Stats.median r') /\
  same_number (Stats.q1 r) (Stats.q1 r') /\
  same_number (Stats.q3 r) (Stats.q3 r').

(** How many of [values] are at most [v], and how many are at least [v],
    by the comparison [<=] of the language. *)
Definition count_le (v : float) (values : list float) : nat :=
  List.length (List.filter (fun x => PrimFloat.leb x v) values).

Definition count_ge (v : float) (values : list float) : nat :=
  List.length (List.filter (fun x => PrimFloat.leb v x) values).

Definition data_five_to_one : list row :=
  [ [("x", VStr "4.0")]; [("x", VNum 5)]; [("x", VStr "2")];
    [("x", VStr "n/a")]; [("x", VStr "1")]; [("x", VStr "3")] ].

Definition data_two_values : list row := [ [("x", VStr "10")]; [("x", VStr "20")] ].

Definition sample_events : list stream_event := List.map Data sample_rows ++ [End].

(** The responses of the handler. *)
Definition unsupported_response : response :=
  {| status := 400; json := ErrorBody "Unsupported file format" None |}.

Definition analysis_response (f : file) (analysisResult : AnalysisResult) : response :=
  {| status := 200;
     json := AnalysisBody "File analyzed successfully" (originalname f) analysisResult |}.

Definition failure_response (details : string) : response :=
  {| status := 500; json := ErrorBody "Failed to analyze file" (Some details) |}.

Definition invalid_type_response : response :=
  {| status := 500;
     json := ErrorBody "Invalid file type. Please upload CSV or Excel files." None |}.


(** The world once the file at [p] is gone. *)
Definition without (p : string) (w : world) : world :=
  {| files := files w ∖ {[p]}; timers := timers w |}.

(** An [extname] that knows the file names of the examples. *)
Definition extname_of_examples (name : string) : string :=
  if String.eqb name "people.csv" then ".csv"
  else if String.eqb name "Book.XLSX" then ".XLSX"
  else if String.eqb name "notes.txt" then ".txt"
  else EmptyString.

Definition people_csv : file :=
  {| originalname := "people.csv"; path := "uploads/1700000000000-people.csv" |}.

Definition book_xlsx : file :=
  {| originalname := "Book.XLSX"; path := "uploads/1700000000001-Book.XLSX" |}.

Definition notes_txt : file :=
  {| originalname := "notes.txt"; path := "uploads/1700000000002-notes.txt" |}.

Definition sample_world : world :=
  {| files := {[ "uploads/1700000000000-people.csv" ]} ∪
              ({[ "uploads/1700000000001-Book.XLSX" ]} ∪
               {[ "uploads/1700000000002-notes.txt" ]});
     timers := [] |}.

Definition sample_csv_events (_ : string) : list stream_event := sample_events.

(** A cell that is empty or holds white space only. *)
Definition blank (s : string) : Prop := trim_start s = EmptyString.

(** The total of the absolute values of a list of integers, and their
    total. *)
Definition sum_abs (ns : list Z) : Z := fold_right (fun n s => Z.abs n + s) 0 ns.
Definition sum_Z (ns : list Z) : Z := fold_right Z.add 0 ns.



Definition data_single : list row := [ [("x", VStr "7.5")] ].





(** * Properties *)

(** ** Binary64 order and rounding *)

Lemma digits2_pos_bounds (m : positive) :
  2 ^ (Zpos (digits2_pos m) - 1) <= Zpos m < 2 ^ Zpos (digits2_pos m).
Proof.
  induction m as [p IH | p IH |]; simpl digits2_pos.
  - rewrite Pos2Z.inj_succ.
    replace (Z.succ (Zpos (digits2_pos p)) - 1) with (Z.succ (Zpos (digits2_pos p) - 1)) by lia.
    rewrite !Z.pow_succ_r by lia. lia.
  - rewrite Pos2Z.inj_succ.
    replace (Z.succ (Zpos (digits2_pos p)) - 1) with (Z.succ (Zpos (digits2_pos p) - 1)) by lia.
    rewrite !Z.pow_succ_r by lia. lia.
  - simpl. lia.
Qed.

Lemma canonical_inv (m : positive) (e : Z) :
  canonical_mantissa prec emax m e = true ->
  -1074 <= e /\ Zpos (digits2_pos m) <= 53 /\ (-1074 < e -> Zpos (digits2_pos m) = 53).
Proof.
  unfold canonical_mantissa, fexp, SpecFloat.emin, prec, emax.
  intros H. apply Z.eqb_eq in H. lia.
Qed.

Lemma bounded_inv (m : positive) (e : Z) :
  bounded prec emax m e = true ->
  -1074 <= e <= 971 /\ Zpos (digits2_pos m) <= 53 /\ (-1074 < e -> Zpos (digits2_pos m) = 53).
Proof.
  unfold bounded. intros H. apply andb_true_iff in H as [Hc He].
  apply canonical_inv in Hc. apply Z.leb_le in He. unfold emax, prec in He. lia.
Qed.

Lemma bounded_mantissa (m : positive) (e : Z) :
  bounded prec emax m e = true ->
  0 < Zpos m * 2 ^ (e + 1074) < scaled_infinity.
Proof.
  intros H. apply bounded_inv in H as (He & Hd & _).
  pose proof (digits2_pos_bounds m) as [_ Hm].
  assert (Zpos m < 2 ^ 53).
  { eapply Z.lt_le_trans; [exact Hm|]. apply Z.pow_le_mono_r; lia. }
  split; [apply Z.mul_pos_pos; [lia | apply Z.pow_pos_nonneg; lia]|].
  unfold scaled_infinity.
  change (2 ^ 2098) with (2 ^ (53 + 2045)). rewrite (Z.pow_add_r 2 53 2045) by lia.
  apply Z.lt_le_trans with (2 ^ 53 * 2 ^ (e + 1074)).
  - apply Z.mul_lt_mono_pos_r; [apply Z.pow_pos_nonneg; lia | assumption].
  - apply Z.mul_le_mono_nonneg_l; [apply Z.pow_nonneg; lia|].
    apply Z.pow_le_mono_r; lia.
Qed.

Lemma scaled_infinity_pos : 0 < scaled_infinity.
Proof. apply Z.pow_pos_nonneg; lia. Qed.

(** Mantissas of equal exponent compare as the values do; a canonical
    value of smaller exponent is the smaller one. *)
Lemma finite_compare (m1 m2 : positive) (e1 e2 : Z) :
  bounded prec emax m1 e1 = true ->
  bounded prec emax m2 e2 = true ->
  match (e1 ?= e2) with
  | Lt => Lt
  | Gt => Gt
  | Eq => Pos.compare_cont Eq m1 m2
  end = (Zpos m1 * 2 ^ (e1 + 1074) ?= Zpos m2 * 2 ^ (e2 + 1074)).
Proof.
  intros H1 H2.
  apply bounded_inv in H1 as (He1 & Hd1 & Hn1).
  apply bounded_inv in H2 as (He2 & Hd2 & Hn2).
  pose proof (digits2_pos_bounds m1) as [Hl1 Hu1].
  pose proof (digits2_pos_bounds m2) as [Hl2 Hu2].
  assert (U1 : Zpos m1 < 2 ^ 53) by (eapply Z.lt_le_trans; [exact Hu1 | apply Z.pow_le_mono_r; lia]).
  assert (U2 : Zpos m2 < 2 ^ 53) by (eapply Z.lt_le_trans; [exact Hu2 | apply Z.pow_le_mono_r; lia]).
  destruct (Z.compare_spec e1 e2) as [E | L | G].
  - subst e2. change (Pos.compare_cont Eq m1 m2) with (Zpos m1 ?= Zpos m2).
    assert (0 < 2 ^ (e1 + 1074)) by (apply Z.pow_pos_nonneg; lia).
    destruct (Z.compare_spec (Zpos m1) (Zpos m2)); symmetry.
    + apply Z.compare_eq_iff. congruence.
    + apply Z.compare_lt_iff. nia.
    + apply Z.compare_gt_iff. nia.
  - symmetry. apply Z.compare_lt_iff.
    rewrite Hn2 in Hl2 by lia.
    replace (e2 + 1074) with ((e2 - e1) + (e1 + 1074)) by lia.
    rewrite (Z.pow_add_r 2 (e2 - e1) (e1 + 1074)) by lia.
    rewrite Z.mul_assoc.
    apply Z.mul_lt_mono_pos_r; [apply Z.pow_pos_nonneg; lia|].
    assert (2 ^ 1 <= 2 ^ (e2 - e1)) by (apply Z.pow_le_mono_r; lia).
    change (2 ^ (53 - 1)) with 4503599627370496 in Hl2.
    change (2 ^ 53) with 9007199254740992 in U1.
    change (2 ^ 1) with 2 in H.
    nia.
  - symmetry. apply Z.compare_gt_iff.
    rewrite Hn1 in Hl1 by lia.
    replace (e1 + 1074) with ((e1 - e2) + (e2 + 1074)) by lia.
    rewrite (Z.pow_add_r 2 (e1 - e2) (e2 + 1074)) by lia.
    rewrite Z.mul_assoc.
    apply Z.mul_lt_mono_pos_r; [apply Z.pow_pos_nonneg; lia|].
    assert (2 ^ 1 <= 2 ^ (e1 - e2)) by (apply Z.pow_le_mono_r; lia).
    change (2 ^ (53 - 1)) with 4503599627370496 in Hl1.
    change (2 ^ 53) with 9007199254740992 in U2.
    change (2 ^ 1) with 2 in H.
    nia.
Qed.

Lemma SFcompare_scaled (x y : spec_float) :
  valid_binary x = true -> valid_binary y = true ->
  is_nan_SF x = false -> is_nan_SF y = false ->
  SFcompare x y = Some (scaled x ?= scaled y).
Proof.
  intros Vx Vy Nx Ny. pose proof scaled_infinity_pos as I.
  destruct x as [sx | sx | | sx mx ex]; try discriminate;
  destruct y as [sy | sy | | sy my ey]; try discriminate;
  cbn [valid_binary] in Vx, Vy; unfold SFcompare, scaled.
  all: try (pose proof (bounded_mantissa _ _ Vx) as Bx).
  all: try (pose proof (bounded_mantissa _ _ Vy) as By).
  all: try (destruct sx); try (destruct sy); unfold cond_Zopp; f_equal; symmetry.
  all: try (apply Z.compare_eq_iff; lia).
  all: try (apply Z.compare_lt_iff; lia).
  all: try (apply Z.compare_gt_iff; lia).
  - rewrite Z.compare_opp, (Z.compare_antisym (Z.pos mx * _)).
    rewrite <- (finite_compare _ _ _ _ Vx Vy).
    destruct (ex ?= ey); reflexivity.
  - symmetry. apply finite_compare; assumption.
Qed.

(** *** Shifts of the rounding machinery *)

Lemma iter_pos_iter {A : Type} (f : A -> A) (p : positive) (x : A) :
  SpecFloat.iter_pos f p x = Pos.iter f x p.
Proof.
  revert x. induction p as [p IH | p IH |]; intros x; simpl.
  - rewrite !IH. rewrite !Pos.iter_swap. reflexivity.
  - rewrite !IH. reflexivity.
  - reflexivity.
Qed.

Lemma shr_1_m (r : shr_record) :
  0 <= shr_m r -> shr_m (shr_1 r) = Z.div2 (shr_m r).
Proof.
  destruct r as [m rb sb]; simpl. intros H.
  destruct m as [| [p | p |] | p]; simpl; try reflexivity; lia.
Qed.

Lemma shr_iter_m (p : positive) (r : shr_record) :
  0 <= shr_m r -> shr_m (SpecFloat.iter_pos shr_1 p r) = Z.shiftr (shr_m r) (Zpos p).
Proof.
  intros H. rewrite iter_pos_iter.
  change (Z.shiftr (shr_m r) (Zpos p)) with (Pos.iter Z.div2 (shr_m r) p).
  revert r H. induction p as [| p IH] using Pos.peano_ind; intros r H.
  - simpl. apply shr_1_m; assumption.
  - rewrite !Pos.iter_succ. rewrite shr_1_m.
    + f_equal. apply IH; assumption.
    + rewrite IH by assumption.
      change (Pos.iter Z.div2 (shr_m r) p) with (Z.shiftr (shr_m r) (Zpos p)).
      apply Z.shiftr_nonneg; assumption.
Qed.

Lemma shr_record_of_loc_m (m : Z) (l : location) : shr_m (shr_record_of_loc m l) = m.
Proof. destruct l as [| []]; reflexivity. Qed.

Lemma shr_fexp_pos (m : positive) (e : Z) (l : location) :
  -1074 <= e ->
  0 < shr_m (fst (shr_fexp prec emax (Zpos m) e l)) /\
  -1074 <= snd (shr_fexp prec emax (Zpos m) e l).
Proof.
  intros He. unfold shr_fexp, shr.
  destruct (fexp prec emax (Zdigits2 (Zpos m) + e) - e) as [| p | p] eqn:E; simpl fst; simpl snd.
  - rewrite shr_record_of_loc_m. lia.
  - rewrite shr_iter_m by (rewrite shr_record_of_loc_m; lia).
    rewrite shr_record_of_loc_m. split; [|lia].
    unfold fexp, SpecFloat.emin, prec, emax in E. simpl Zdigits2 in E.
    pose proof (digits2_pos_bounds m) as [Hl _].
    rewrite Z.shiftr_div_pow2 by lia.
    apply Z.div_str_pos. split; [apply Z.pow_pos_nonneg; lia|].
    eapply Z.le_trans; [|exact Hl]. apply Z.pow_le_mono_r; lia.
  - rewrite shr_record_of_loc_m. lia.
Qed.

Lemma round_nearest_even_ge (m : Z) (l : location) : m <= round_nearest_even m l.
Proof. destruct l as [| []]; simpl; try lia. destruct (Z.even m); lia. Qed.

(** Rounding a positive integer at an exponent of the format gives a
    number of the sign asked for: never a zero, never a [NaN]. *)
Lemma binary_round_aux_sign (s : bool) (m : positive) (e : Z) (l : location) :
  -1074 <= e ->
  (exists m' e', binary_round_aux prec emax s (Zpos m) e l = S754_finite s m' e')
  \/ binary_round_aux prec emax s (Zpos m) e l = S754_infinity s.
Proof.
  intros He. unfold binary_round_aux.
  pose proof (shr_fexp_pos m e l He) as [H1 H2].
  destruct (shr_fexp prec emax (Zpos m) e l) as [mrs' e'].
  simpl fst in H1; simpl snd in H2.
  pose proof (round_nearest_even_ge (shr_m mrs') (loc_of_shr_record mrs')) as Hr.
  destruct (round_nearest_even (shr_m mrs') (loc_of_shr_record mrs')) as [| m1 | m1]; try lia.
  pose proof (shr_fexp_pos m1 e' loc_Exact H2) as [H3 H4].
  destruct (shr_fexp prec emax (Zpos m1) e' loc_Exact) as [mrs'' e''].
  simpl fst in H3.
  destruct (shr_m mrs'') as [| m2 | m2]; try lia.
  destruct (e'' <=? emax - prec); [left; eauto | right; reflexivity].
Qed.

Lemma iter_xO_value (m d : positive) : Zpos (Pos.iter xO m d) = Zpos m * 2 ^ Zpos d.
Proof.
  induction d as [| d IH] using Pos.peano_ind.
  - simpl. lia.
  - rewrite Pos.iter_succ, Pos2Z.inj_succ, Z.pow_succ_r by lia.
    rewrite Pos2Z.inj_xO, IH. lia.
Qed.

Lemma shl_align_value (m : positive) (e e' : Z) :
  e' <= e ->
  Zpos (fst (shl_align m e e')) = Zpos m * 2 ^ (e - e') /\ snd (shl_align m e e') = e'.
Proof.
  intros H. unfold shl_align.
  destruct (e' - e) as [| d | d] eqn:E; simpl fst; simpl snd.
  - replace (e - e') with 0 by lia. simpl. lia.
  - lia.
  - rewrite iter_xO_value. replace (e - e') with (Zpos d) by lia. lia.
Qed.

Lemma shl_align_exponent (m : positive) (e e' : Z) :
  -1074 <= e -> -1074 <= e' -> -1074 <= snd (shl_align m e e').
Proof.
  intros H H'. unfold shl_align. destruct (e' - e); simpl; lia.
Qed.

Lemma binary_round_sign (s : bool) (m : positive) (e : Z) :
  -1074 <= e ->
  (exists m' e', binary_round prec emax s m e = S754_finite s m' e')
  \/ binary_round prec emax s m e = S754_infinity s.
Proof.
  intros He. unfold binary_round.
  pose proof (shl_align_exponent m e (fexp prec emax (Zpos (digits2_pos m) + e)) He) as H.
  destruct (shl_align m e (fexp prec emax (Zpos (digits2_pos m) + e))) as [mz ez].
  apply binary_round_aux_sign. apply H.
  unfold fexp, SpecFloat.emin, prec, emax. lia.
Qed.

Lemma binary_normalize_positive (z e : Z) :
  -1074 <= e ->
  SFpositive (binary_normalize prec emax z e false) = (0 <? z).
Proof.
  intros He. destruct z as [| p | p]; simpl.
  - reflexivity.
  - destruct (binary_round_sign false p e He) as [(m' & e' & ->) | ->]; reflexivity.
  - destruct (binary_round_sign true p e He) as [(m' & e' & ->) | ->]; reflexivity.
Qed.

Lemma cond_Zopp_mul (s : bool) (a c : Z) : cond_Zopp s (a * c) = cond_Zopp s a * c.
Proof. destruct s; unfold cond_Zopp; ring. Qed.

Lemma SFsub_positive (x y : spec_float) :
  valid_binary x = true -> valid_binary y = true ->
  is_nan_SF x = false -> is_nan_SF y = false ->
  SFpositive (SFsub prec emax x y) = (scaled y <? scaled x).
Proof.
  intros Vx Vy Nx Ny. pose proof scaled_infinity_pos as I.
  destruct x as [sx | sx | | sx mx ex]; try discriminate;
  destruct y as [sy | sy | | sy my ey]; try discriminate;
  cbn [valid_binary] in Vx, Vy.
  all: try (pose proof (bounded_mantissa _ _ Vx) as Bx).
  all: try (pose proof (bounded_mantissa _ _ Vy) as By).
  all: try (try destruct sx; try destruct sy; unfold scaled, cond_Zopp; cbn [SFsub negb];
            unfold SFpositive, SFltb, SFcompare; symmetry;
            solve [apply Z.ltb_lt; lia | apply Z.ltb_ge; lia]).
  - unfold SFsub.
    apply bounded_inv in Vx as (Hex & _). apply bounded_inv in Vy as (Hey & _).
    rewrite binary_normalize_positive by lia.
    destruct (shl_align_value mx ex (Z.min ex ey)) as [-> _]; [lia|].
    destruct (shl_align_value my ey (Z.min ex ey)) as [-> _]; [lia|].
    unfold scaled.
    assert (Ex : Zpos mx * 2 ^ (ex + 1074)
                 = Zpos mx * 2 ^ (ex - Z.min ex ey) * 2 ^ (Z.min ex ey + 1074)).
    { rewrite <- Z.mul_assoc, <- Z.pow_add_r by lia. do 2 f_equal. lia. }
    assert (Ey : Zpos my * 2 ^ (ey + 1074)
                 = Zpos my * 2 ^ (ey - Z.min ex ey) * 2 ^ (Z.min ex ey + 1074)).
    { rewrite <- Z.mul_assoc, <- Z.pow_add_r by lia. do 2 f_equal. lia. }
    rewrite Ex, Ey.
    rewrite (cond_Zopp_mul sx (Zpos mx * 2 ^ (ex - Z.min ex ey))).
    rewrite (cond_Zopp_mul sy (Zpos my * 2 ^ (ey - Z.min ex ey))).
    assert (P : 0 < 2 ^ (Z.min ex ey + 1074)) by (apply Z.pow_pos_nonneg; lia).
    set (a := cond_Zopp sx (Zpos mx * 2 ^ (ex - Z.min ex ey))).
    set (b := cond_Zopp sy (Zpos my * 2 ^ (ey - Z.min ex ey))).
    set (c := 2 ^ (Z.min ex ey + 1074)) in *.
    destruct (Z.ltb_spec 0 (a - b)) as [L | L]; symmetry.
    + apply Z.ltb_lt. apply Z.mul_lt_mono_pos_r; [exact P | lia].
    + apply Z.ltb_ge. apply Z.mul_le_mono_nonneg_r; lia.
Qed.

Lemma digits2_pos_iter_xO (m k : positive) :
  digits2_pos (Pos.iter xO m k) = (digits2_pos m + k)%positive.
Proof.
  induction k as [| k IH] using Pos.peano_ind.
  - simpl. lia.
  - rewrite Pos.iter_succ. simpl. rewrite IH. lia.
Qed.

Lemma shr_exact (m k : positive) :
  SpecFloat.iter_pos shr_1 k {| shr_m := Zpos (Pos.iter xO m k); shr_r := false; shr_s := false |}
  = {| shr_m := Zpos m; shr_r := false; shr_s := false |}.
Proof.
  rewrite iter_pos_iter.
  induction k as [| k IH] using Pos.peano_ind.
  - reflexivity.
  - rewrite (Pos.iter_succ_r k _ shr_1), (Pos.iter_succ k _ xO). simpl shr_1. exact IH.
Qed.

Lemma canonical_no_shift (m : positive) (e : Z) :
  canonical_mantissa prec emax m e = true ->
  shr_fexp prec emax (Zpos m) e loc_Exact
  = ({| shr_m := Zpos m; shr_r := false; shr_s := false |}, e).
Proof.
  unfold canonical_mantissa. intros H. apply Z.eqb_eq in H.
  unfold shr_fexp. simpl Zdigits2. rewrite H, Z.sub_diag. reflexivity.
Qed.

(** Rounding is the identity on a mantissa that, its low zero bits
    dropped, is canonical. *)
Lemma binary_round_aux_exact (s : bool) (m : positive) (e k : Z) :
  0 <= k ->
  bounded prec emax m (e + k) = true ->
  binary_round_aux prec emax s (Zpos m * 2 ^ k) e loc_Exact = S754_finite s m (e + k).
Proof.
  intros Hk Hb. unfold bounded in Hb. apply andb_true_iff in Hb as [Hc Hb].
  unfold binary_round_aux.
  destruct k as [| k | k]; [| | lia].
  - rewrite Z.pow_0_r, Z.mul_1_r, Z.add_0_r in *.
    rewrite (canonical_no_shift m e Hc). simpl.
    rewrite (canonical_no_shift m e Hc). simpl. simpl in Hb. rewrite Hb. reflexivity.
  - rewrite <- iter_xO_value.
    pose proof Hc as Hc'. unfold canonical_mantissa in Hc'. apply Z.eqb_eq in Hc'.
    unfold shr_fexp at 1. simpl Zdigits2. rewrite digits2_pos_iter_xO.
    replace (Zpos (digits2_pos m + k) + e) with (Zpos (digits2_pos m) + (e + Zpos k)) by lia.
    rewrite Hc'. replace (e + Zpos k - e) with (Zpos k) by lia.
    unfold shr. simpl shr_record_of_loc. rewrite shr_exact. simpl.
    rewrite (canonical_no_shift m (e + Zpos k) Hc). simpl. simpl in Hb. rewrite Hb. reflexivity.
Qed.

(** *** Normal forms *)

Lemma digits_le_53 (z : positive) : Zpos z < 2 ^ 53 -> Zpos (digits2_pos z) <= 53.
Proof.
  intros H. pose proof (digits2_pos_bounds z) as [Hl _].
  destruct (Z.le_gt_cases (Zpos (digits2_pos z)) 53) as [|G]; [assumption|].
  assert (2 ^ 53 <= 2 ^ (Zpos (digits2_pos z) - 1)) by (apply Z.pow_le_mono_r; lia).
  lia.
Qed.

Lemma nm_value (z : positive) :
  Zpos (digits2_pos z) <= 53 ->
  Zpos (nm z) = Zpos z * 2 ^ (53 - Zpos (digits2_pos z)).
Proof.
  intros H. unfold nm. rewrite Z2Pos.id; [reflexivity|].
  apply Z.mul_pos_pos; [lia | apply Z.pow_pos_nonneg; lia].
Qed.

Lemma nm_digits (z : positive) :
  Zpos (digits2_pos z) <= 53 -> Zpos (digits2_pos (nm z)) = 53.
Proof.
  intros H. unfold nm.
  destruct (53 - Zpos (digits2_pos z)) as [| k | k] eqn:E; [| | lia].
  - rewrite Z.pow_0_r, Z.mul_1_r. simpl Z.to_pos. lia.
  - rewrite <- iter_xO_value. simpl Z.to_pos. rewrite digits2_pos_iter_xO. lia.
Qed.

Lemma norm_bounded (z : positive) (E : Z) :
  Zpos (digits2_pos z) <= 53 ->
  -1074 <= E - (53 - Zpos (digits2_pos z)) <= 971 ->
  bounded prec emax (nm z) (E - (53 - Zpos (digits2_pos z))) = true.
Proof.
  intros Hd HE. unfold bounded, canonical_mantissa. rewrite nm_digits by assumption.
  apply andb_true_iff. split.
  - apply Z.eqb_eq. unfold fexp, SpecFloat.emin, prec, emax. lia.
  - apply Z.leb_le. unfold prec, emax. lia.
Qed.

Lemma round_norm (s : bool) (z : positive) (e j : Z) :
  Zpos (digits2_pos z) <= 53 ->
  53 - Zpos (digits2_pos z) <= j ->
  -1074 <= e + j - (53 - Zpos (digits2_pos z)) <= 971 ->
  binary_round_aux prec emax s (Zpos z * 2 ^ j) e loc_Exact = norm s z (e + j).
Proof.
  intros Hd Hj HE.
  set (k := j - (53 - Zpos (digits2_pos z))).
  replace (Zpos z * 2 ^ j) with (Zpos (nm z) * 2 ^ k).
  - rewrite binary_round_aux_exact.
    + unfold norm. f_equal. unfold k. lia.
    + unfold k. lia.
    + replace (e + k) with (e + j - (53 - Zpos (digits2_pos z))) by (unfold k; lia).
      apply norm_bounded; assumption.
  - rewrite nm_value by assumption. rewrite <- Z.mul_assoc, <- Z.pow_add_r by (unfold k; lia).
    do 2 f_equal. unfold k. lia.
Qed.

Lemma binary_normalize_norm (z : positive) :
  Zpos z < 2 ^ 53 ->
  binary_normalize prec emax (Zpos z) 0 false = norm false z 0.
Proof.
  intros Hz. pose proof (digits_le_53 z Hz) as Hd.
  unfold binary_normalize, binary_round.
  assert (F : fexp prec emax (Zpos (digits2_pos z) + 0) = Zpos (digits2_pos z) - 53).
  { unfold fexp, SpecFloat.emin, prec, emax. lia. }
  rewrite F.
  destruct (shl_align_value z 0 (Zpos (digits2_pos z) - 53)) as [Hm He]; [lia|].
  destruct (shl_align z 0 (Zpos (digits2_pos z) - 53)) as [mz ez].
  simpl fst in Hm; simpl snd in He. subst ez. rewrite Hm.
  rewrite round_norm by lia. f_equal. lia.
Qed.

Lemma Prim2SF_float_of_Z (z : positive) :
  Zpos z < 2 ^ 53 ->
  Prim2SF (of_uint63 (Uint63.of_Z (Zpos z))) = norm false z 0.
Proof.
  intros Hz. rewrite of_uint63_spec.
  replace (Uint63Axioms.to_Z (of_Z (Zpos z))) with (Zpos z).
  - apply binary_normalize_norm; assumption.
  - change (Uint63Axioms.to_Z (of_Z (Zpos z))) with (Uint63.to_Z (of_Z (Zpos z))).
    rewrite Uint63.of_Z_spec. symmetry. apply Z.mod_small.
    split; [lia|]. eapply Z.lt_trans; [exact Hz|]. reflexivity.
Qed.

Lemma digits_mul_lower (z1 z2 : positive) :
  Zpos (digits2_pos z1) + Zpos (digits2_pos z2) - 1 <= Zpos (digits2_pos (z1 * z2)).
Proof.
  pose proof (digits2_pos_bounds z1) as [L1 _].
  pose proof (digits2_pos_bounds z2) as [L2 _].
  pose proof (digits2_pos_bounds (z1 * z2)) as [_ U].
  rewrite Pos2Z.inj_mul in U.
  assert (P : 2 ^ (Zpos (digits2_pos z1) - 1 + (Zpos (digits2_pos z2) - 1))
              < 2 ^ Zpos (digits2_pos (z1 * z2))).
  { rewrite Z.pow_add_r by lia.
    eapply Z.le_lt_trans; [|exact U].
    apply Z.mul_le_mono_nonneg; try assumption; apply Z.pow_nonneg; lia. }
  apply Z.pow_lt_mono_r_iff in P; lia.
Qed.

Lemma SFmul_norm (s1 s2 : bool) (z1 z2 : positive) (E1 E2 : Z) :
  Zpos (digits2_pos z1) <= 53 -> Zpos (digits2_pos z2) <= 53 ->
  Zpos (digits2_pos (z1 * z2)) <= 53 ->
  -1074 <= E1 + E2 - (53 - Zpos (digits2_pos (z1 * z2))) <= 971 ->
  SFmul prec emax (norm s1 z1 E1) (norm s2 z2 E2) = norm (xorb s1 s2) (z1 * z2) (E1 + E2).
Proof.
  intros H1 H2 H12 HE. unfold norm at 1 2. unfold SFmul.
  pose proof (digits_mul_lower z1 z2) as Hl.
  rewrite Pos2Z.inj_mul, !nm_value by assumption.
  replace (Zpos z1 * 2 ^ (53 - Zpos (digits2_pos z1)) * (Zpos z2 * 2 ^ (53 - Zpos (digits2_pos z2))))
    with (Zpos (z1 * z2) * 2 ^ (106 - Zpos (digits2_pos z1) - Zpos (digits2_pos z2))).
  - rewrite round_norm by lia. f_equal. lia.
  - rewrite Pos2Z.inj_mul.
    replace (106 - Zpos (digits2_pos z1) - Zpos (digits2_pos z2))
      with ((53 - Zpos (digits2_pos z1)) + (53 - Zpos (digits2_pos z2))) by lia.
    rewrite Z.pow_add_r by lia. ring.
Qed.

Lemma SFdiv_norm_two (z : positive) :
  Zpos (digits2_pos z) <= 53 ->
  SFdiv prec emax (norm false z 0) (S754_finite false 4503599627370496 (-51)) = norm false z (-1).
Proof.
  intros Hd. unfold norm at 1. unfold SFdiv, SFdiv_core_binary.
  change (Zdigits2 (Zpos 4503599627370496)) with 53.
  change (Zdigits2 (Zpos (nm z))) with (Zpos (digits2_pos (nm z))).
  rewrite nm_digits by assumption.
  set (e1 := 0 - (53 - Zpos (digits2_pos z))).
  assert (He1 : -52 <= e1 <= 0) by (unfold e1; lia).
  assert (F : Z.min (fexp prec emax (53 + e1 - (53 + -51))) (e1 - -51) = e1 - 2).
  { unfold fexp, SpecFloat.emin, prec, emax. lia. }
  rewrite F. replace (e1 - -51 - (e1 - 2)) with 53 by lia.
  rewrite Z.shiftl_mul_pow2 by lia.
  replace (Zpos (nm z) * 2 ^ 53) with ((Zpos (nm z) * 2) * 4503599627370496)
    by (change (2 ^ 53) with (2 * 4503599627370496); ring).
  assert (D : Z.div_eucl (Zpos (nm z) * 2 * 4503599627370496) 4503599627370496
              = (Zpos (nm z) * 2, 0)).
  { pose proof (Z.div_mul (Zpos (nm z) * 2) 4503599627370496) as Hq.
    pose proof (Z.mod_mul (Zpos (nm z) * 2) 4503599627370496) as Hr.
    unfold Z.div, Z.modulo in Hq, Hr.
    destruct (Z.div_eucl (Zpos (nm z) * 2 * 4503599627370496) 4503599627370496) as [q r].
    rewrite Hq, Hr by lia. reflexivity. }
  rewrite D. change (new_location 4503599627370496 0) with loc_Exact.
  rewrite nm_value by assumption.
  replace (Zpos z * 2 ^ (53 - Zpos (digits2_pos z)) * 2)
    with (Zpos z * 2 ^ (54 - Zpos (digits2_pos z))).
  - simpl xorb. rewrite round_norm by (unfold e1; lia). f_equal. unfold e1. lia.
  - replace (54 - Zpos (digits2_pos z)) with (Z.succ (53 - Zpos (digits2_pos z))) by lia.
    rewrite Z.pow_succ_r by lia. ring.
Qed.

Lemma shift_cancel (z a b : Z) :
  0 <= a -> 0 <= b -> Z.shiftr (z * 2 ^ a) (a + b) = z / 2 ^ b.
Proof.
  intros Ha Hb. rewrite Z.shiftr_div_pow2 by lia.
  rewrite Z.pow_add_r, (Z.mul_comm (2 ^ a)) by lia.
  apply Z.div_mul_cancel_r; apply Z.pow_nonzero; lia.
Qed.

Lemma SFinteger_value_norm (q : positive) :
  Zpos q < 2 ^ 53 -> SFinteger_value (norm false q 0) = Some (Zpos q).
Proof.
  intros Hq. pose proof (digits_le_53 q Hq) as Hd.
  unfold norm, SFinteger_value. cbv zeta. rewrite nm_value by assumption.
  set (a := 53 - Zpos (digits2_pos q)). assert (0 <= a) by (unfold a; lia).
  destruct (Z.leb_spec 0 (0 - a)).
  - replace a with 0 by lia. unfold cond_Zopp.
    rewrite Z.sub_diag, Z.shiftl_0_r, Z.pow_0_r, Z.mul_1_r. reflexivity.
  - replace (- (0 - a)) with (a + 0) by lia.
    rewrite shift_cancel by lia. rewrite Z.pow_0_r, Z.div_1_r.
    rewrite Z.shiftl_mul_pow2 by lia. replace (a + 0) with a by lia.
    rewrite Z.eqb_refl. reflexivity.
Qed.

(** The integer that [Math.floor] of a positive number [z * 2^E],
    [E <= 0], denotes. *)
Lemma SFinteger_value_floor (z : positive) (E : Z) :
  Zpos z < 2 ^ 53 -> -1000 <= E <= 0 ->
  valid_binary (SFfloor (norm false z E)) = true /\
  SFinteger_value (SFfloor (norm false z E)) = Some (Zpos z / 2 ^ (- E)).
Proof.
  intros Hz HE. pose proof (digits_le_53 z Hz) as Hd.
  unfold norm. unfold SFfloor. cbv zeta.
  set (a := 53 - Zpos (digits2_pos z)). assert (Ha : 0 <= a) by (unfold a; lia).
  destruct (Z.leb_spec 0 (E - a)).
  - assert (E = 0) by lia. assert (a = 0) by lia. subst E.
    split.
    + unfold valid_binary. replace (0 - a) with (0 - (53 - Zpos (digits2_pos z))) by (unfold a; lia).
      apply norm_bounded; lia.
    + change (S754_finite false (nm z) (0 - a)) with (norm false z 0).
      rewrite SFinteger_value_norm by assumption. simpl. rewrite Z.div_1_r. reflexivity.
  - rewrite nm_value by assumption. fold a.
    replace (- (E - a)) with (a + - E) by lia.
    rewrite shift_cancel by lia.
    assert (Q : 0 <= Zpos z / 2 ^ (- E) <= Zpos z).
    { split; [apply Z.div_pos; [lia | apply Z.pow_pos_nonneg; lia]|].
      apply Z.div_le_upper_bound; [apply Z.pow_pos_nonneg; lia|].
      assert (1 <= 2 ^ (- E)) by (apply (Z.pow_le_mono_r 2 0); lia). nia. }
    destruct (Zpos z / 2 ^ (- E)) as [| q | q] eqn:Eq; [| | lia].
    + split; reflexivity.
    + rewrite binary_normalize_norm by lia. split.
      * unfold norm, valid_binary. apply norm_bounded.
        -- apply digits_le_53; lia.
        -- pose proof (digits_le_53 q ltac:(lia)). lia.
      * apply SFinteger_value_norm; lia.
Qed.

(** ** Primitive floats through their specification *)

Lemma SFcompare_refl (x : spec_float) :
  valid_binary x = true -> is_nan_SF x = false -> SFcompare x x = Some Eq.
Proof.
  intros V N. rewrite SFcompare_scaled by assumption. rewrite Z.compare_refl. reflexivity.
Qed.

Lemma is_nan_Prim2SF (x : float) : is_nan x = is_nan_SF (Prim2SF x).
Proof.
  unfold is_nan. rewrite FloatAxioms.eqb_spec. unfold SFeqb.
  destruct (is_nan_SF (Prim2SF x)) eqn:N.
  - destruct (Prim2SF x); try discriminate. reflexivity.
  - rewrite SFcompare_refl by (auto using Prim2SF_valid). reflexivity.
Qed.

Lemma ltb_ford (x y : float) :
  is_nan x = false -> is_nan y = false ->
  PrimFloat.ltb x y = (ford x <? ford y).
Proof.
  intros Nx Ny. rewrite is_nan_Prim2SF in Nx, Ny.
  rewrite FloatAxioms.ltb_spec. unfold SFltb, ford.
  rewrite SFcompare_scaled by (auto using Prim2SF_valid).
  unfold Z.ltb. destruct (scaled (Prim2SF x) ?= scaled (Prim2SF y)); reflexivity.
Qed.

Lemma leb_ford (x y : float) :
  is_nan x = false -> is_nan y = false ->
  PrimFloat.leb x y = (ford x <=? ford y).
Proof.
  intros Nx Ny. rewrite is_nan_Prim2SF in Nx, Ny.
  rewrite FloatAxioms.leb_spec. unfold SFleb, ford.
  rewrite SFcompare_scaled by (auto using Prim2SF_valid).
  unfold Z.leb. destruct (scaled (Prim2SF x) ?= scaled (Prim2SF y)); reflexivity.
Qed.

Lemma leb_fle (x y : float) :
  is_nan x = false -> is_nan y = false ->
  fle x y -> PrimFloat.leb x y = true.
Proof.
  intros Nx Ny H. rewrite leb_ford by assumption. apply Z.leb_le. exact H.
Qed.

(** The comparator of the sort: [a - b] is positive exactly when [b] is
    below [a]. *)
Lemma comparefn_positive (a b : float) :
  is_nan a = false -> is_nan b = false ->
  PrimFloat.ltb zero (comparefn a b) = (ford b <? ford a).
Proof.
  intros Na Nb. rewrite is_nan_Prim2SF in Na, Nb.
  rewrite FloatAxioms.ltb_spec. unfold comparefn. rewrite FloatAxioms.sub_spec.
  change (Prim2SF zero) with (S754_zero false).
  apply (SFsub_positive (Prim2SF a) (Prim2SF b)); auto using Prim2SF_valid.
Qed.

Lemma ford_infinity_inv (x : float) :
  is_nan x = false -> scaled_infinity <= ford x -> x = infinity.
Proof.
  intros N H. rewrite is_nan_Prim2SF in N. unfold ford in H.
  pose proof (Prim2SF_valid x) as V. pose proof scaled_infinity_pos as I.
  rewrite <- (SF2Prim_Prim2SF x).
  destruct (Prim2SF x) as [s | s | | s m e]; try discriminate; unfold scaled in H.
  - lia.
  - destruct s; [|reflexivity]. unfold cond_Zopp in H. lia.
  - cbn [valid_binary] in V. pose proof (bounded_mantissa _ _ V).
    destruct s; unfold cond_Zopp in H; lia.
Qed.

Lemma ford_neg_infinity_inv (x : float) :
  is_nan x = false -> ford x <= - scaled_infinity -> x = neg_infinity.
Proof.
  intros N H. rewrite is_nan_Prim2SF in N. unfold ford in H.
  pose proof (Prim2SF_valid x) as V. pose proof scaled_infinity_pos as I.
  rewrite <- (SF2Prim_Prim2SF x).
  destruct (Prim2SF x) as [s | s | | s m e]; try discriminate; unfold scaled in H.
  - lia.
  - destruct s; [reflexivity|]. unfold cond_Zopp in H. lia.
  - cbn [valid_binary] in V. pose proof (bounded_mantissa _ _ V).
    destruct s; unfold cond_Zopp in H; lia.
Qed.

Lemma ford_infinity : ford infinity = scaled_infinity.
Proof. reflexivity. Qed.

Lemma ford_neg_infinity : ford neg_infinity = - scaled_infinity.
Proof. reflexivity. Qed.

Lemma is_neg_zero_eq (x : float) : is_neg_zero x = true -> x = neg_zero.
Proof. apply FloatAxioms.Leibniz.eqb_spec. Qed.

Lemma is_pos_zero_eq (x : float) : is_pos_zero x = true -> x = zero.
Proof. apply FloatAxioms.Leibniz.eqb_spec. Qed.

(** ** The sort *)

Lemma sort_insert_Permutation (x : float) (l : list float) : Permutation (sort_insert x l) (x :: l).
Proof.
  induction l as [| y l IH]; simpl.
  - apply Permutation_refl.
  - destruct (PrimFloat.ltb zero (comparefn y x)).
    + apply Permutation_refl.
    + eapply Permutation_trans; [apply perm_skip; exact IH | apply perm_swap].
Qed.

Lemma fold_insert_Permutation (l acc : list float) :
  Permutation (fold_left (fun sorted x => sort_insert x sorted) l acc) (l ++ acc).
Proof.
  revert acc. induction l as [| x l IH]; intros acc; simpl.
  - apply Permutation_refl.
  - eapply Permutation_trans; [apply IH|].
    eapply Permutation_trans; [apply Permutation_app_head; apply sort_insert_Permutation|].
    apply Permutation_sym, Permutation_middle.
Qed.

Lemma sort_Permutation (l : list float) : Permutation (sort l) l.
Proof.
  unfold sort. eapply Permutation_trans; [apply fold_insert_Permutation|].
  rewrite app_nil_r. apply Permutation_refl.
Qed.

Lemma sort_length (l : list float) : List.length (sort l) = List.length l.
Proof. apply Permutation_length, sort_Permutation. Qed.

Lemma no_nan_Permutation (l l' : list float) : Permutation l l' -> no_nan l -> no_nan l'.
Proof. intros P H. unfold no_nan in *. eapply Permutation_Forall; eassumption. Qed.

Lemma sort_insert_sorted (x : float) (l : list float) :
  is_nan x = false -> no_nan l ->
  StronglySorted fle l -> StronglySorted fle (sort_insert x l).
Proof.
  intros Nx Nl S. induction S as [| y l S IH F]; simpl.
  - constructor; [constructor | constructor].
  - inversion Nl as [| ? ? Ny Nl']; subst.
    rewrite comparefn_positive by assumption.
    destruct (Z.ltb_spec (ford x) (ford y)) as [L | G].
    + constructor; [constructor; assumption|].
      constructor; [unfold fle; lia|].
      eapply List.Forall_impl; [|exact F]. unfold fle. intros z Hz. lia.
    + constructor; [apply IH; assumption|].
      eapply Permutation_Forall; [apply Permutation_sym, sort_insert_Permutation|].
      constructor; [exact G | exact F].
Qed.

Lemma fold_insert_sorted (l acc : list float) :
  no_nan l -> no_nan acc -> StronglySorted fle acc ->
  StronglySorted fle (fold_left (fun sorted x => sort_insert x sorted) l acc).
Proof.
  revert acc. induction l as [| x l IH]; intros acc Nl Na S; simpl.
  - exact S.
  - inversion Nl as [| ? ? Nx Nl']; subst. apply IH; [assumption | |].
    + eapply no_nan_Permutation; [apply Permutation_sym, sort_insert_Permutation|].
      constructor; assumption.
    + apply sort_insert_sorted; assumption.
Qed.

Lemma sort_sorted (l : list float) : no_nan l -> StronglySorted fle (sort l).
Proof.
  intros N. unfold sort. apply fold_insert_sorted; [exact N | constructor | constructor].
Qed.

Lemma sorted_nth (l : list float) (d : float) (i j : nat) :
  StronglySorted fle l -> (i <= j)%nat -> (j < List.length l)%nat ->
  fle (nth i l d) (nth j l d).
Proof.
  intros S. revert i j. induction S as [| y l S IH F]; intros i j Hij Hj; simpl in Hj.
  - lia.
  - destruct i as [| i]; destruct j as [| j]; simpl; try lia.
    + unfold fle. lia.
    + rewrite List.Forall_forall in F. apply F. apply nth_In. lia.
    + apply IH; lia.
Qed.

(** ** [Math.min] and [Math.max] *)

Lemma Math_min_from_spec (values : list float) (lowest : float) :
  is_nan lowest = false -> no_nan values ->
  (Math_min_from lowest values = lowest \/ In (Math_min_from lowest values) values) /\
  fle (Math_min_from lowest values) lowest /\
  Forall (fle (Math_min_from lowest values)) values.
Proof.
  revert lowest. induction values as [| x values IH]; intros lowest Nl Nv; simpl.
  - split; [left; reflexivity | split; [unfold fle; lia | constructor]].
  - inversion Nv as [| ? ? Nx Nv']; subst. rewrite Nx.
    set (l1 := if is_neg_zero x && is_pos_zero lowest then neg_zero else lowest).
    assert (H1 : (l1 = lowest \/ l1 = x) /\ ford l1 = ford lowest /\ is_nan l1 = false).
    { unfold l1. destruct (is_neg_zero x && is_pos_zero lowest) eqn:E.
      - apply andb_true_iff in E as [Ex El].
        apply is_neg_zero_eq in Ex. apply is_pos_zero_eq in El. subst.
        split; [right; reflexivity | split; [reflexivity | reflexivity]].
      - split; [left; reflexivity | split; [reflexivity | assumption]]. }
    destruct H1 as (M1 & F1 & N1).
    set (l2 := if PrimFloat.ltb x l1 then x else l1).
    assert (H2 : (l2 = lowest \/ l2 = x) /\ ford l2 <= ford lowest /\ ford l2 <= ford x
                 /\ is_nan l2 = false).
    { unfold l2. rewrite ltb_ford by assumption.
      destruct (Z.ltb_spec (ford x) (ford l1)).
      - split; [right; reflexivity | split; [lia | split; [lia | assumption]]].
      - split; [destruct M1; auto | split; [lia | split; [lia | assumption]]]. }
    destruct H2 as (M2 & L2 & X2 & N2).
    destruct (IH l2 N2 Nv') as (M & L & F).
    split; [|split].
    + destruct M as [M | M].
      * rewrite M. destruct M2 as [-> | ->]; [left; reflexivity | right; left; reflexivity].
      * right; right; exact M.
    + unfold fle in *. lia.
    + constructor; [unfold fle in *; lia | exact F].
Qed.

Lemma Math_max_from_spec (values : list float) (highest : float) :
  is_nan highest = false -> no_nan values ->
  (Math_max_from highest values = highest \/ In (Math_max_from highest values) values) /\
  fle highest (Math_max_from highest values) /\
  Forall (fun v => fle v (Math_max_from highest values)) values.
Proof.
  revert highest. induction values as [| x values IH]; intros highest Nl Nv; simpl.
  - split; [left; reflexivity | split; [unfold fle; lia | constructor]].
  - inversion Nv as [| ? ? Nx Nv']; subst. rewrite Nx.
    set (l1 := if is_pos_zero x && is_neg_zero highest then zero else highest).
    assert (H1 : (l1 = highest \/ l1 = x) /\ ford l1 = ford highest /\ is_nan l1 = false).
    { unfold l1. destruct (is_pos_zero x && is_neg_zero highest) eqn:E.
      - apply andb_true_iff in E as [Ex El].
        apply is_pos_zero_eq in Ex. apply is_neg_zero_eq in El. subst.
        split; [right; reflexivity | split; [reflexivity | reflexivity]].
      - split; [left; reflexivity | split; [reflexivity | assumption]]. }
    destruct H1 as (M1 & F1 & N1).
    set (l2 := if PrimFloat.ltb l1 x then x else l1).
    assert (H2 : (l2 = highest \/ l2 = x) /\ ford highest <= ford l2 /\ ford x <= ford l2
                 /\ is_nan l2 = false).
    { unfold l2. rewrite ltb_ford by assumption.
      destruct (Z.ltb_spec (ford l1) (ford x)).
      - split; [right; reflexivity | split; [lia | split; [lia | assumption]]].
      - split; [destruct M1; auto | split; [lia | split; [lia | assumption]]]. }
    destruct H2 as (M2 & L2 & X2 & N2).
    destruct (IH l2 N2 Nv') as (M & L & F).
    split; [|split].
    + destruct M as [M | M].
      * rewrite M. destruct M2 as [-> | ->]; [left; reflexivity | right; left; reflexivity].
      * right; right; exact M.
    + unfold fle in *. lia.
    + constructor; [unfold fle in *; lia | exact F].
Qed.

Lemma Math_min_spec (values : list float) :
  values <> [] -> no_nan values ->
  In (Math_min values) values /\ Forall (fle (Math_min values)) values.
Proof.
  intros Hne N. unfold Math_min.
  destruct (Math_min_from_spec values infinity eq_refl N) as (M & _ & F).
  split; [|exact F].
  destruct M as [M | M]; [|exact M].
  rewrite M in *. destruct values as [| x values]; [congruence|].
  inversion F as [| ? ? Fx _]; subst. inversion N as [| ? ? Nx _]; subst.
  unfold fle in Fx. rewrite ford_infinity in Fx.
  left. apply ford_infinity_inv; assumption.
Qed.

Lemma Math_max_spec (values : list float) :
  values <> [] -> no_nan values ->
  In (Math_max values) values /\ Forall (fun v => fle v (Math_max values)) values.
Proof.
  intros Hne N. unfold Math_max.
  destruct (Math_max_from_spec values neg_infinity eq_refl N) as (M & _ & F).
  split; [|exact F].
  destruct M as [M | M]; [|exact M].
  rewrite M in *. destruct values as [| x values]; [congruence|].
  inversion F as [| ? ? Fx _]; subst. inversion N as [| ? ? Nx _]; subst.
  unfold fle in Fx. rewrite ford_neg_infinity in Fx.
  left. apply ford_neg_infinity_inv; assumption.
Qed.

(** ** The percentile indices

    For an array length [n] (positive, below [2^32]) the numbers [n / 2],
    [n * 0.25] and [n * 0.75] are computed without rounding, and their
    [Math.floor] is the index [n / 2], [n / 4] and [3 * n / 4] of integer
    arithmetic. *)

Lemma at_index_floor (sorted : list float) (y : float) (z : positive) (E : Z) :
  Prim2SF y = norm false z E ->
  Zpos z < 2 ^ 53 -> -1000 <= E <= 0 ->
  at_index sorted (Math_floor y) = nth (Z.to_nat (Zpos z / 2 ^ (- E))) sorted nan.
Proof.
  intros Hy Hz HE. unfold at_index, integer_value, Math_floor. rewrite Hy.
  destruct (SFinteger_value_floor z E Hz HE) as [V I].
  rewrite Prim2SF_SF2Prim by exact V. rewrite I.
  assert (0 <= Zpos z / 2 ^ (- E)) by (apply Z.div_pos; [lia | apply Z.pow_pos_nonneg; lia]).
  destruct (Z.leb_spec 0 (Zpos z / 2 ^ (- E))); [reflexivity | lia].
Qed.

Lemma Zpos_of_nat (n : nat) : (0 < n)%nat -> Zpos (Pos.of_nat n) = Z.of_nat n.
Proof.
  intros Hn. rewrite <- positive_nat_Z, Nat2Pos.id by lia. reflexivity.
Qed.

Lemma Prim2SF_float_of_nat (n : nat) :
  (0 < n)%nat -> Z.of_nat n < 2 ^ 53 ->
  Prim2SF (float_of_nat n) = norm false (Pos.of_nat n) 0.
Proof.
  intros Hn Hb. unfold float_of_nat, float_of_Z.
  rewrite <- (Zpos_of_nat n Hn). apply Prim2SF_float_of_Z.
  rewrite Zpos_of_nat by exact Hn. exact Hb.
Qed.

Lemma index_half (sorted : list float) (n : nat) :
  (0 < n)%nat -> Z.of_nat n < 2 ^ 32 ->
  at_index sorted (Math_floor (PrimFloat.div (float_of_nat n) 2%float))
  = nth (n / 2) sorted nan.
Proof.
  intros Hn Hb.
  assert (Hb53 : Z.of_nat n < 2 ^ 53) by (eapply Z.lt_trans; [exact Hb | reflexivity]).
  pose proof (Zpos_of_nat n Hn) as Hp.
  rewrite (at_index_floor sorted _ (Pos.of_nat n) (-1)).
  - f_equal. rewrite Hp. change (2 ^ (- -1)) with (Z.of_nat 2).
    rewrite <- Nat2Z.inj_div. apply Nat2Z.id.
  - rewrite FloatAxioms.div_spec, Prim2SF_float_of_nat by assumption.
    change (Prim2SF 2%float) with (S754_finite false 4503599627370496 (-51)).
    apply SFdiv_norm_two. apply digits_le_53. rewrite Hp. exact Hb53.
  - rewrite Hp. exact Hb53.
  - lia.
Qed.

Lemma index_q1 (sorted : list float) (n : nat) :
  (0 < n)%nat -> Z.of_nat n < 2 ^ 32 ->
  at_index sorted (Math_floor (PrimFloat.mul (float_of_nat n) 0.25%float))
  = nth (n / 4) sorted nan.
Proof.
  intros Hn Hb.
  assert (Hb53 : Z.of_nat n < 2 ^ 53) by (eapply Z.lt_trans; [exact Hb | reflexivity]).
  pose proof (Zpos_of_nat n Hn) as Hp.
  rewrite (at_index_floor sorted _ (Pos.of_nat n * 1) (0 + -2)).
  - f_equal. rewrite Pos.mul_1_r, Hp. change (2 ^ (- (0 + -2))) with (Z.of_nat 4).
    rewrite <- Nat2Z.inj_div. apply Nat2Z.id.
  - rewrite FloatAxioms.mul_spec, Prim2SF_float_of_nat by assumption.
    change (Prim2SF 0.25%float) with (norm false 1 (-2)).
    assert (D : Zpos (digits2_pos (Pos.of_nat n * 1)) <= 53).
    { apply digits_le_53. rewrite Pos.mul_1_r, Hp. exact Hb53. }
    apply (SFmul_norm false false); try exact D.
    + rewrite Pos.mul_1_r in D. exact D.
    + vm_compute. discriminate.
    + pose proof (Pos2Z.is_pos (digits2_pos (Pos.of_nat n * 1))). lia.
  - rewrite Pos.mul_1_r, Hp. exact Hb53.
  - lia.
Qed.

Lemma index_q3 (sorted : list float) (n : nat) :
  (0 < n)%nat -> Z.of_nat n < 2 ^ 32 ->
  at_index sorted (Math_floor (PrimFloat.mul (float_of_nat n) 0.75%float))
  = nth (3 * n / 4) sorted nan.
Proof.
  intros Hn Hb.
  assert (Hb53 : Z.of_nat n < 2 ^ 53) by (eapply Z.lt_trans; [exact Hb | reflexivity]).
  pose proof (Zpos_of_nat n Hn) as Hp.
  assert (Hb3 : Zpos (Pos.of_nat n * 3) < 2 ^ 53).
  { rewrite Pos2Z.inj_mul, Hp. change (2 ^ 32) with 4294967296 in Hb.
    change (2 ^ 53) with 9007199254740992. lia. }
  rewrite (at_index_floor sorted _ (Pos.of_nat n * 3) (0 + -2)).
  - f_equal. rewrite Pos2Z.inj_mul, Hp. change (2 ^ (- (0 + -2))) with (Z.of_nat 4).
    change (Zpos 3) with (Z.of_nat 3).
    rewrite <- Nat2Z.inj_mul, <- Nat2Z.inj_div, Nat2Z.id. f_equal. lia.
  - rewrite FloatAxioms.mul_spec, Prim2SF_float_of_nat by assumption.
    change (Prim2SF 0.75%float) with (norm false 3 (-2)).
    assert (D : Zpos (digits2_pos (Pos.of_nat n * 3)) <= 53) by (apply digits_le_53; exact Hb3).
    apply (SFmul_norm false false); try exact D.
    + apply digits_le_53. rewrite Hp. exact Hb53.
    + vm_compute. discriminate.
    + pose proof (Pos2Z.is_pos (digits2_pos (Pos.of_nat n * 3))). lia.
  - exact Hb3.
  - lia.
Qed.

(** ** The numeric subset *)

Lemma numeric_values_In (data : list row) (column : string) (v : float) :
  In v (numeric_values data column) <->
  is_nan v = false /\ exists r, In r data /\ v = parseFloat (get r column).
Proof.
  unfold numeric_values, isNaN. rewrite filter_In, in_map_iff, negb_true_iff.
  split.
  - intros [(r & E & I) N]. split; [exact N|]. exists r. auto.
  - intros [N (r & I & E)]. split; [|exact N]. exists r. auto.
Qed.

Lemma numeric_values_no_nan (data : list row) (column : string) :
  no_nan (numeric_values data column).
Proof.
  unfold no_nan. apply List.Forall_forall. intros v H.
  apply numeric_values_In in H. tauto.
Qed.

Lemma numeric_values_length (data : list row) (column : string) :
  (List.length (numeric_values data column) <= List.length data)%nat.
Proof.
  unfold numeric_values.
  eapply Nat.le_trans; [apply List.filter_length_le|]. rewrite List.length_map. lia.
Qed.

Lemma numeric_values_nonempty (data : list row) (column : string) :
  numeric_values data column <> [] <->
  exists r, In r data /\ is_nan (parseFloat (get r column)) = false.
Proof.
  split.
  - intros H. destruct (numeric_values data column) as [| v l] eqn:E; [congruence|].
    assert (I : In v (numeric_values data column)) by (rewrite E; left; reflexivity).
    apply numeric_values_In in I as [N (r & I & ->)]. eauto.
  - intros (r & I & N) E.
    assert (I' : In (parseFloat (get r column)) (numeric_values data column)).
    { apply numeric_values_In. eauto. }
    rewrite E in I'. destruct I'.
Qed.

(** ** The map of statistics *)

Lemma calculateNumericStats_fold (data : list row) (columns : list string)
      (stats : gmap string Stats.t) (c : string) :
  fold_left (stats_step data) columns stats !! c
  = if decide (In c columns /\ (0 < List.length (numeric_values data c))%nat)
    then Some (column_stats (numeric_values data c))
    else stats !! c.
Proof.
  revert stats. induction columns as [| column columns IH]; intros stats; cbn [fold_left].
  - rewrite decide_False; [reflexivity | intros [[] _]].
  - rewrite IH. clear IH. unfold stats_step.
    destruct (decide (In c columns /\ (0 < List.length (numeric_values data c))%nat))
      as [[I N] | H].
    + rewrite decide_True by (split; [right; exact I | exact N]). reflexivity.
    + destruct (Nat.ltb_spec 0 (List.length (numeric_values data column))) as [L | L].
      * destruct (decide (column = c)) as [-> | Hne].
        -- rewrite lookup_insert_eq.
           rewrite decide_True by (split; [left; reflexivity | exact L]). reflexivity.
        -- rewrite lookup_insert_ne by exact Hne.
           rewrite decide_False; [reflexivity|]. intros [[E | I] N]; [congruence | tauto].
      * rewrite decide_False; [reflexivity|].
        intros [[E | I] N]; [|tauto]. subst. lia.
Qed.

Lemma calculateNumericStats_lookup (data : list row) (columns : list string) (c : string) :
  calculateNumericStats data columns !! c
  = if decide (In c columns /\ (0 < List.length (numeric_values data c))%nat)
    then Some (column_stats (numeric_values data c))
    else None.
Proof.
  unfold calculateNumericStats. rewrite calculateNumericStats_fold.
  rewrite lookup_empty. reflexivity.
Qed.

Lemma length_pos_nonempty {A : Type} (l : list A) : (0 < List.length l)%nat <-> l <> [].
Proof. destruct l; simpl; split; intros; try lia; congruence. Qed.

(** ** The record of a column *)

Lemma percentile_index_in_range (n : nat) :
  (0 < n)%nat ->
  (n / 4 <= n / 2 <= 3 * n / 4 /\ 3 * n / 4 < n)%nat.
Proof.
  intros Hn.
  pose proof (Nat.div_mod_eq n 2). pose proof (Nat.mod_upper_bound n 2).
  pose proof (Nat.div_mod_eq n 4). pose proof (Nat.mod_upper_bound n 4).
  pose proof (Nat.div_mod_eq (3 * n) 4). pose proof (Nat.mod_upper_bound (3 * n) 4).
  lia.
Qed.

Lemma column_stats_percentiles (values : list float) :
  values <> [] -> Z.of_nat (List.length values) < 2 ^ 32 ->
  Stats.median (column_stats values) = nth (List.length values / 2) (sort values) nan /\
  Stats.q1 (column_stats values) = nth (List.length values / 4) (sort values) nan /\
  Stats.q3 (column_stats values) = nth (3 * List.length values / 4) (sort values) nan.
Proof.
  intros Hne Hb. apply length_pos_nonempty in Hne.
  unfold column_stats; cbn [Stats.median Stats.q1 Stats.q3].
  rewrite sort_length.
  rewrite index_half, index_q1, index_q3 by assumption. auto.
Qed.

Lemma column_stats_order (values : list float) :
  values <> [] -> no_nan values -> Z.of_nat (List.length values) < 2 ^ 32 ->
  fle (Stats.min (column_stats values)) (Stats.q1 (column_stats values)) /\
  fle (Stats.q1 (column_stats values)) (Stats.median (column_stats values)) /\
  fle (Stats.median (column_stats values)) (Stats.q3 (column_stats values)) /\
  fle (Stats.q3 (column_stats values)) (Stats.max (column_stats values)).
Proof.
  intros Hne N Hb.
  destruct (column_stats_percentiles values Hne Hb) as (-> & -> & ->).
  pose proof (sort_sorted values N) as S.
  pose proof (sort_Permutation values) as P.
  pose proof (sort_length values) as L.
  apply length_pos_nonempty in Hne.
  destruct (Math_min_spec values) as [_ Fmin]; [apply length_pos_nonempty; exact Hne | exact N |].
  destruct (Math_max_spec values) as [_ Fmax]; [apply length_pos_nonempty; exact Hne | exact N |].
  cbn [column_stats Stats.min Stats.max].
  rewrite List.Forall_forall in Fmin, Fmax.
  assert (I : forall i, (i < List.length values)%nat -> In (nth i (sort values) nan) values).
  { intros i Hi. eapply Permutation_in; [exact P|]. apply nth_In. lia. }
  pose proof (percentile_index_in_range (List.length values) Hne) as H.
  destruct H as [[H4 H2] H3].
  split; [apply Fmin, I; lia|].
  split; [apply sorted_nth; [exact S | exact H4 | lia]|].
  split; [apply sorted_nth; [exact S | exact H2 | lia]|].
  apply Fmax, I; lia.
Qed.

(** ** Type inference *)

Lemma is_finite_not_nan (n : float) : is_finite n = true -> is_nan n = false.
Proof.
  unfold is_finite. intros H. apply negb_true_iff, orb_false_iff in H. tauto.
Qed.

Lemma inferType_spec (Date_parse : value -> float) (v : value) :
  nonfinite_number v = false -> inferType Date_parse v = Normal (spec_type Date_parse v).
Proof.
  intros H. destruct v as [| | b | n | s]; try reflexivity.
  - unfold inferType, spec_type, parses_as_finite_number.
    destruct (negb (isNaN (parseFloat (VBool b))) && isFinite (VBool b)); reflexivity.
  - simpl in H. apply negb_false_iff in H.
    unfold inferType, spec_type, parses_as_finite_number.
    assert (E : negb (isNaN (parseFloat (VNum n))) && isFinite (VNum n) = true).
    { apply andb_true_iff. split; [|exact H].
      apply negb_true_iff. unfold isNaN, parseFloat.
      destruct (is_neg_zero n); [reflexivity | apply is_finite_not_nan, H]. }
    rewrite E. reflexivity.
  - unfold inferType, spec_type, parses_as_finite_number.
    destruct (negb (isNaN (parseFloat (VStr s))) && isFinite (VStr s)); [reflexivity|].
    unfold looks_boolean, typeof_boolean, is_true_or_false, call_toLowerCase, bind.
    destruct (String.eqb (toLowerCase s) "true"); [reflexivity|].
    destruct (String.eqb (toLowerCase s) "false"); [reflexivity|].
    cbn [orb]. destruct (negb (isNaN (Date_parse (VStr s)))); reflexivity.
Qed.

Lemma inferType_throw (Date_parse : value -> float) (v : value) :
  nonfinite_number v = true -> inferType Date_parse v = Throw toLowerCase_TypeError.
Proof.
  intros H. destruct v as [| | b | n | s]; try discriminate.
  simpl in H. apply negb_true_iff in H.
  unfold inferType, isFinite, ToNumber. rewrite H, andb_false_r. reflexivity.
Qed.

Section Inference.

Variable Date_parse : value -> float.
Variable data : list row.

Lemma forEach_infer_inv (columns : list string) (acc dt : gmap string dataType) :
  forEach (infer_step Date_parse data) columns acc = Normal dt ->
  (forall c, In c columns -> nonfinite_number (first_row_value data c) = false) /\
  (forall c, dt !! c = if decide (In c columns)
                       then Some (spec_type Date_parse (first_row_value data c))
                       else acc !! c).
Proof.
  revert acc. induction columns as [| column columns IH]; intros acc H; cbn [forEach] in H.
  - injection H as <-. split; [intros c []|]. intros c.
    rewrite decide_False; [reflexivity | intros []].
  - unfold infer_step at 1 in H.
    destruct (nonfinite_number (first_row_value data column)) eqn:E.
    + rewrite inferType_throw in H by exact E. discriminate.
    + rewrite inferType_spec in H by exact E. cbn [bind] in H.
      apply IH in H as [H1 H2]. split.
      * intros c [<- | I]; [exact E | apply H1, I].
      * intros c. rewrite H2.
        destruct (decide (In c columns)) as [I | I].
        -- rewrite decide_True by (right; exact I). reflexivity.
        -- destruct (decide (column = c)) as [-> | Hne].
           ++ rewrite lookup_insert_eq, decide_True by (left; reflexivity). reflexivity.
           ++ rewrite lookup_insert_ne by exact Hne.
              rewrite decide_False; [reflexivity|]. intros [? | ?]; tauto.
Qed.

Lemma forEach_infer_total (columns : list string) (acc : gmap string dataType) :
  (forall c, In c columns -> nonfinite_number (first_row_value data c) = false) ->
  exists dt, forEach (infer_step Date_parse data) columns acc = Normal dt.
Proof.
  revert acc. induction columns as [| column columns IH]; intros acc H; cbn [forEach].
  - eauto.
  - unfold infer_step at 1. rewrite inferType_spec by (apply H; left; reflexivity).
    cbn [bind]. apply IH. intros c I. apply H. right. exact I.
Qed.

Lemma forEach_infer_throw (columns : list string) (acc : gmap string dataType) (c : string) :
  In c columns -> nonfinite_number (first_row_value data c) = true ->
  forEach (infer_step Date_parse data) columns acc = Throw toLowerCase_TypeError.
Proof.
  revert acc. induction columns as [| column columns IH]; intros acc I H; [destruct I|].
  cbn [forEach]. unfold infer_step at 1.
  destruct (nonfinite_number (first_row_value data column)) eqn:E.
  - rewrite inferType_throw by exact E. reflexivity.
  - rewrite inferType_spec by exact E. cbn [bind].
    destruct I as [-> | I]; [congruence|]. apply IH; assumption.
Qed.

End Inference.

Lemma inferDataTypes_inv (Date_parse : value -> float) (data : list row)
      (columns : list string) (dt : gmap string dataType) :
  inferDataTypes Date_parse data columns = Normal dt ->
  (forall c, In c columns -> nonfinite_number (first_row_value data c) = false) /\
  (forall c, dt !! c = if decide (In c columns)
                       then Some (spec_type Date_parse (first_row_value data c))
                       else None).
Proof.
  intros H. apply forEach_infer_inv in H as [H1 H2]. split; [exact H1|].
  intros c. rewrite H2, lookup_empty. reflexivity.
Qed.

Lemma inferDataTypes_total (Date_parse : value -> float) (data : list row)
      (columns : list string) :
  (forall c, In c columns -> nonfinite_number (first_row_value data c) = false) ->
  exists dt, inferDataTypes Date_parse data columns = Normal dt.
Proof. apply forEach_infer_total. Qed.

Lemma inferDataTypes_throw (Date_parse : value -> float) (data : list row)
      (columns : list string) (c : string) :
  In c columns -> nonfinite_number (first_row_value data c) = true ->
  inferDataTypes Date_parse data columns = Throw toLowerCase_TypeError.
Proof. apply forEach_infer_throw. Qed.

(** ** The orchestrators *)

Lemma analyzeRows_nonempty (Date_parse : value -> float) (first : row) (rest : list row)
      (r : AnalysisResult) :
  analyzeRows Date_parse (first :: rest) = Normal r ->
  exists dt,
    inferDataTypes Date_parse (first :: rest) (Object_keys first) = Normal dt /\
    r = {| rows := List.length (first :: rest);
           columns := List.length (Object_keys first);
           columnNames := Object_keys first;
           dataTypes := Some dt;
           numericStats := Some (calculateNumericStats (first :: rest) (Object_keys first));
           preview := firstn 5 (first :: rest) |}.
Proof.
  unfold analyzeRows.
  destruct (inferDataTypes Date_parse (first :: rest) (Object_keys first)) as [dt | e];
    cbn [bind]; intros H; [|discriminate].
  injection H as <-. eauto.
Qed.

Lemma analyzeRows_inferable (Date_parse : value -> float) (first : row) (rest : list row) :
  row_inferable first ->
  exists dt,
    analyzeRows Date_parse (first :: rest)
    = Normal {| rows := List.length (first :: rest);
                columns := List.length (Object_keys first);
                columnNames := Object_keys first;
                dataTypes := Some dt;
                numericStats := Some (calculateNumericStats (first :: rest) (Object_keys first));
                preview := firstn 5 (first :: rest) |}.
Proof.
  intros H.
  destruct (inferDataTypes_total Date_parse (first :: rest) (Object_keys first)) as [dt E].
  { intros c I. apply H, I. }
  exists dt. unfold analyzeRows. rewrite E. reflexivity.
Qed.

Lemma analyzeCSV_on_data (Date_parse : value -> float) (rs results : list row)
      (events : list stream_event) :
  analyzeCSV_on Date_parse results (List.map Data rs ++ events)
  = analyzeCSV_on Date_parse (results ++ rs) events.
Proof.
  revert results. induction rs as [| r rs IH]; intros results; simpl.
  - rewrite app_nil_r. reflexivity.
  - rewrite IH, <- app_assoc. reflexivity.
Qed.

Lemma analyzeCSV_end (Date_parse : value -> float) (rs : list row)
      (events : list stream_event) :
  analyzeCSV Date_parse (List.map Data rs ++ End :: events)
  = match analyzeRows Date_parse rs with
    | Normal r => Fulfilled r
    | Throw e => Uncaught e
    end.
Proof. unfold analyzeCSV. rewrite analyzeCSV_on_data. reflexivity. Qed.


(** Every fulfilled promise comes from an ['end'] event after the rows
    that were pushed. *)
Lemma analyzeCSV_on_fulfilled (Date_parse : value -> float) (events : list stream_event)
      (results : list row) (r : AnalysisResult) :
  analyzeCSV_on Date_parse results events = Fulfilled r ->
  exists rs, analyzeRows Date_parse (results ++ rs) = Normal r.
Proof.
  revert results. induction events as [| ev events IH]; intros results H; simpl in H.
  - discriminate.
  - destruct ev as [d | | e].
    + apply IH in H as [rs H]. exists (d :: rs). rewrite <- app_assoc in H. exact H.
    + exists []. rewrite app_nil_r.
      destruct (analyzeRows Date_parse results); [congruence | discriminate].
    + discriminate.
Qed.

(** ** Lemmas for the claims *)

Lemma get_In (r : row) (c : string) : In c (Object_keys r) -> In (c, get r c) r.
Proof.
  induction r as [| [k v] r IH]; intros H; [destruct H|].
  cbn [get]. destruct (String.eqb_spec k c) as [-> | Hne].
  - left. reflexivity.
  - right. apply IH. destruct H as [E | H]; [contradiction | exact H].
Qed.

Lemma string_cells_inferable (r : row) : string_cells r -> row_inferable r.
Proof.
  intros H c I. destruct (H c (get r c) (get_In r c I)) as [s ->]. reflexivity.
Qed.

(** On the rows of a CSV file the handler of ['end'] raises nothing: the
    promise is fulfilled at ['end'], rejected at ['error'], and pending
    before. *)
Lemma analyzeCSV_strings (Date_parse : value -> float) (rs : list row)
      (events : list stream_event) :
  Forall string_cells rs ->
  exists r, analyzeCSV Date_parse (List.map Data rs ++ End :: events) = Fulfilled r.
Proof.
  intros H. rewrite analyzeCSV_end. destruct rs as [| first rest].
  - eexists. reflexivity.
  - inversion H as [| ? ? Hf _]; subst.
    destruct (analyzeRows_inferable Date_parse first rest (string_cells_inferable _ Hf))
      as [dt E].
    rewrite E. eexists. reflexivity.
Qed.



(** Apart from that case the inferrer follows the decision order of the
    specification: one type per column, from the first row alone. *)
Lemma inferDataTypes_spec (Date_parse : value -> float) (data : list row)
      (columns : list string) :
  (forall c, In c columns -> nonfinite_number (first_row_value data c) = false) ->
  exists dt,
    inferDataTypes Date_parse data columns = Normal dt /\
    (forall c, In c columns ->
               dt !! c = Some (spec_type Date_parse (first_row_value data c))) /\
    (forall c, ~ In c columns -> dt !! c = None).
Proof.
  intros H. destruct (inferDataTypes_total Date_parse data columns H) as [dt E].
  exists dt. split; [exact E|].
  apply inferDataTypes_inv in E as [_ L].
  split; intros c I; rewrite L; [rewrite decide_True | rewrite decide_False]; auto.
Qed.

Lemma inferDataTypes_first_row_only (Date_parse : value -> float) (first : row)
      (rest rest' : list row) (columns : list string) :
  inferDataTypes Date_parse (first :: rest) columns
  = inferDataTypes Date_parse (first :: rest') columns.
Proof. reflexivity. Qed.

Lemma spec_type_examples (Date_parse : value -> float) :
  spec_type Date_parse (VStr "42") = number /\
  spec_type Date_parse (VStr "true") = boolean /\
  spec_type Date_parse (VStr "0") = number /\
  spec_type Date_parse VUndefined = unknown /\
  spec_type Date_parse VNull = unknown /\
  spec_type Date_parse (VBool false) = boolean /\
  spec_type Date_parse (VStr "FALSE") = boolean.
Proof. repeat split; vm_compute; reflexivity. Qed.

Lemma spec_type_date_examples :
  spec_type Date_parse_iso_only (VStr "2024-01-01") = date /\
  spec_type Date_parse_iso_only (VStr "hello") = string_.
Proof. split; vm_compute; reflexivity. Qed.


Lemma analyzeRows_columns_typed (Date_parse : value -> float) (results : list row)
      (r : AnalysisResult) :
  analyzeRows Date_parse results = Normal r -> columns_typed r.
Proof.
  intros H. destruct results as [| first rest].
  - injection H as <-. split; [reflexivity|]. split.
    + intros c. unfold dataTypes_of. cbn. rewrite lookup_empty. split; [intros [] | intros [? ?]; discriminate].
    + intros c t t' E. unfold dataTypes_of in E. cbn in E. rewrite lookup_empty in E. discriminate.
  - apply analyzeRows_nonempty in H as (dt & E & ->).
    apply inferDataTypes_inv in E as [_ L].
    split; [reflexivity|]. unfold dataTypes_of; cbn [dataTypes columnNames default]. split.
    + intros c. rewrite L. destruct (decide (In c (Object_keys first))) as [I | I].
      * split; [eauto | intros _; exact I].
      * split; [tauto | intros [? ?]; discriminate].
    + intros c t t' E1 E2. congruence.
Qed.

Lemma analyzeRows_preview (Date_parse : value -> float) (results : list row)
      (r : AnalysisResult) :
  analyzeRows Date_parse results = Normal r -> preview_of results r.
Proof.
  intros H. destruct results as [| first rest].
  - injection H as <-. repeat split.
  - apply analyzeRows_nonempty in H as (dt & _ & ->).
    split; [reflexivity|]. split; [reflexivity|].
    cbn [preview rows]. apply List.length_firstn.
Qed.

(** ** The claims of the specification *)



(** C2.  On a first-row sample that is the number [Infinity] the inferrer
    assigns no type to any column: it raises a [TypeError], where the
    decision order of the specification gives that column a type
    ([date] or [string], as [Date.parse] decides) and gives [number] to
    the column before it. *)
Theorem C2_inferDataTypes_raises_on_Infinity (Date_parse : value -> float) :
  inferDataTypes Date_parse data_infinite_number ["id"; "x"] = Throw toLowerCase_TypeError /\
  spec_type Date_parse (first_row_value data_infinite_number "id") = number /\
  (spec_type Date_parse (first_row_value data_infinite_number "x") = date \/
   spec_type Date_parse (first_row_value data_infinite_number "x") = string_).
Proof.
  split; [vm_compute; reflexivity|]. split; [vm_compute; reflexivity|].
  change (first_row_value data_infinite_number "x") with (VNum infinity).
  unfold spec_type.
  change (parses_as_finite_number (VNum infinity)) with false.
  cbn [typeof_boolean is_true_or_false orb].
  destruct (negb (isNaN (Date_parse (VNum infinity)))); [left | right]; reflexivity.
Qed.

(** C3, as the code has it.  For every row sequence and column, the
    collected subset consists exactly of the numbers
    [parseFloat(row[column])] that are not [NaN], in row order: the finite
    ones and also [+Infinity] and [-Infinity].  A value whose [parseFloat]
    is [NaN] is dropped silently: the function is total and the subset
    keeps no trace of the rows it dropped. *)
Theorem C3_collected_subset (data : list row) (column : string) :
  (forall v, In v (numeric_values data column) <->
             is_nan v = false /\ exists r, In r data /\ v = parseFloat (get r column)) /\
  (forall r, In r data -> is_finite (parseFloat (get r column)) = true ->
             In (parseFloat (get r column)) (numeric_values data column)) /\
  (forall r, In r data -> is_infinity (parseFloat (get r column)) = true ->
             In (parseFloat (get r column)) (numeric_values data column)) /\
  numeric_values data column
  = List.map (fun r => parseFloat (get r column))
      (List.filter (fun r => negb (is_nan (parseFloat (get r column)))) data).
Proof.
  split; [intros v; apply numeric_values_In|].
  split; [|split].
  - intros r I F. apply numeric_values_In. split; [apply is_finite_not_nan, F | eauto].
  - intros r I F. apply numeric_values_In. split; [|eauto].
    unfold is_infinity in F. rewrite is_nan_Prim2SF.
    rewrite FloatAxioms.eqb_spec, FloatAxioms.abs_spec in F.
    destruct (Prim2SF (parseFloat (get r column))); try reflexivity. discriminate.
  - unfold numeric_values, isNaN. induction data as [| r data IH]; [reflexivity|].
    simpl. destruct (is_nan (parseFloat (get r column))); simpl; rewrite IH; reflexivity.
Qed.

Lemma C3_counterexample :
  numeric_values data_infinity "x" = [infinity] /\
  is_finite infinity = false /\
  calculateNumericStats data_infinity ["x"] !! "x"
  = Some {| Stats.count := 1; Stats.mean := infinity; Stats.min := infinity;
            Stats.max := infinity; Stats.sum := infinity; Stats.median := infinity;
            Stats.q1 := infinity; Stats.q3 := infinity |}.
Proof. vm_compute. auto. Qed.



(** C5.  The type inferrer is not total: on a first-row sample that is a
    number but not a finite one ([NaN] here) it calls [toLowerCase] on the
    number and raises a [TypeError].  The statistics engine returns on the
    same rows. *)
Theorem C5_inferDataTypes_raises_on_NaN (Date_parse : value -> float) :
  inferDataTypes Date_parse data_nan_number ["n"] = Throw toLowerCase_TypeError /\
  calculateNumericStats data_nan_number ["n"] = ∅.
Proof. split; reflexivity. Qed.




(** C7, as the code has it.  A well-formed source without data rows is
    analysed without error, and the result has [rows = 0], [columns = 0],
    an empty column name list and an empty preview; it has no [dataTypes]
    and no [numericStats] property. *)
Theorem C7_empty_table (Date_parse : value -> float)
        (XLSX_load : string -> completion (list row)) :
  (forall filePath,
      XLSX_load filePath = Normal [] ->
      analyzeExcel Date_parse XLSX_load filePath = Normal empty_result) /\
  (forall events, analyzeCSV Date_parse (End :: events) = Fulfilled empty_result) /\
  rows empty_result = 0%nat /\
  columns empty_result = 0%nat /\
  columnNames empty_result = [] /\
  preview empty_result = [] /\
  dataTypes empty_result = None /\
  numericStats empty_result = None.
Proof.
  repeat apply conj; try reflexivity.
  intros filePath H. unfold analyzeExcel. rewrite H. reflexivity.
Qed.

Lemma C7_witness :
  analyzeExcel Date_parse_iso_only no_rows_loader "empty.xlsx" = Normal empty_result.
Proof.
  apply (proj1 (C7_empty_table Date_parse_iso_only no_rows_loader)). reflexivity.
Defined.

Lemma C7_counterexample :
  analyzeCSV Date_parse_iso_only [End] = Fulfilled empty_result /\
  dataTypes empty_result <> Some ∅ /\
  numericStats empty_result <> Some ∅.
Proof. repeat apply conj; [reflexivity | discriminate | discriminate]. Qed.

(** C8. In every result the analysis produces, the length of
    [columnNames] is [columns], and the keys of [dataTypes] are exactly
    the column names: every column has one inferred type, with no key
    besides and no column left out.  This includes the result for a
    source without data rows, which has no column and no [dataTypes]
    key. *)
Theorem C8_columns_and_types (Date_parse : value -> float) :
  (forall (XLSX_load : string -> completion (list row)) filePath r,
      analyzeExcel Date_parse XLSX_load filePath = Normal r -> columns_typed r) /\
  (forall events r,
      analyzeCSV Date_parse events = Fulfilled r -> columns_typed r).
Proof.
  split.
  - intros XLSX_load filePath r H. unfold analyzeExcel in H.
    destruct (XLSX_load filePath) as [results | e]; [|discriminate].
    eapply analyzeRows_columns_typed. exact H.
  - intros events r H. apply analyzeCSV_on_fulfilled in H as [rs H].
    eapply analyzeRows_columns_typed. exact H.
Qed.

Lemma C8_witness :
  columns_typed
    (full_result sample_rows ["name"; "age"]
       (<["age" := number]> (<["name" := string_]> ∅))).
Proof.
  apply (proj1 (C8_columns_and_types Date_parse_iso_only) sample_loader "book.xlsx").
  vm_compute. reflexivity.
Defined.

(** C9. The preview of a result has length [min(5, rowCount)] and is the
    first rows of the loaded sequence, unchanged and in source order. *)
Theorem C9_preview (Date_parse : value -> float) :
  (forall (XLSX_load : string -> completion (list row)) filePath results r,
      XLSX_load filePath = Normal results ->
      analyzeExcel Date_parse XLSX_load filePath = Normal r ->
      preview_of results r) /\
  (forall rs events r,
      analyzeCSV Date_parse (List.map Data rs ++ End :: events) = Fulfilled r ->
      preview_of rs r).
Proof.
  split.
  - intros XLSX_load filePath results r L H. unfold analyzeExcel in H. rewrite L in H.
    eapply analyzeRows_preview. exact H.
  - intros rs events r H. rewrite analyzeCSV_end in H.
    destruct (analyzeRows Date_parse rs) as [r' | e] eqn:E; [|discriminate].
    injection H as <-. eapply analyzeRows_preview. exact E.
Qed.

Lemma C9_witness :
  preview_of sample_rows
    (full_result sample_rows ["name"; "age"]
       (<["age" := number]> (<["name" := string_]> ∅))).
Proof.
  apply (proj1 (C9_preview Date_parse_iso_only) sample_loader "book.xlsx").
  - reflexivity.
  - vm_compute. reflexivity.
Defined.

(** C10. For every column present in [numericStats] the record has
    [count >= 1] and [min <= q1 <= median <= q3 <= max]: the three
    percentile indices are ordered and index the ascending-sorted subset,
    whose elements lie between [min] and [max].  This holds whenever the
    column is present, in particular when all collected values are
    finite.  (The row sequence is an array: fewer than [2^32] rows.) *)
Theorem C10_percentiles_ordered (data : list row) (columns : list string)
        (column : string) (r : Stats.t) :
  calculateNumericStats data columns !! column = Some r ->
  Z.of_nat (List.length data) < 2 ^ 32 ->
  (1 <= Stats.count r)%nat /\
  fleb (Stats.min r) (Stats.q1 r) /\
  fleb (Stats.q1 r) (Stats.median r) /\
  fleb (Stats.median r) (Stats.q3 r) /\
  fleb (Stats.q3 r) (Stats.max r).
Proof.
  intros H Hb. rewrite calculateNumericStats_lookup in H.
  destruct (decide _) as [[I L] |]; [|discriminate]. injection H as <-.
  set (values := numeric_values data column) in *.
  assert (N : no_nan values) by apply numeric_values_no_nan.
  assert (Hne : values <> []) by (apply length_pos_nonempty, L).
  assert (Hb' : Z.of_nat (List.length values) < 2 ^ 32).
  { pose proof (numeric_values_length data column). fold values in H. lia. }
  split; [exact L|].
  destruct (column_stats_order values Hne N Hb') as (O1 & O2 & O3 & O4).
  destruct (column_stats_percentiles values Hne Hb') as (Em & E1 & E3).
  destruct (Math_min_spec values Hne N) as [Imin _].
  destruct (Math_max_spec values Hne N) as [Imax _].
  pose proof N as N'. unfold no_nan in N'. rewrite List.Forall_forall in N'.
  assert (P : forall i, (i < List.length values)%nat -> is_nan (nth i (sort values) nan) = false).
  { intros i Hi. apply N'. eapply Permutation_in; [apply sort_Permutation|].
    apply nth_In. rewrite sort_length. exact Hi. }
  assert (Hi : (List.length values / 4 < List.length values
                /\ List.length values / 2 < List.length values
                /\ 3 * List.length values / 4 < List.length values)%nat).
  { pose proof (percentile_index_in_range (List.length values) L). lia. }
  destruct Hi as (I1 & I2 & I3).
  assert (Nq1 : is_nan (Stats.q1 (column_stats values)) = false) by (rewrite E1; apply P, I1).
  assert (Nmd : is_nan (Stats.median (column_stats values)) = false) by (rewrite Em; apply P, I2).
  assert (Nq3 : is_nan (Stats.q3 (column_stats values)) = false) by (rewrite E3; apply P, I3).
  assert (Nmin : is_nan (Stats.min (column_stats values)) = false) by (apply N', Imin).
  assert (Nmax : is_nan (Stats.max (column_stats values)) = false) by (apply N', Imax).
  unfold fleb. auto using leb_fle.
Qed.

Lemma C10_witness :
  (1 <= Stats.count (column_stats (numeric_values data_one_to_five "x")))%nat /\
  fleb (Stats.min (column_stats (numeric_values data_one_to_five "x")))
       (Stats.q1 (column_stats (numeric_values data_one_to_five "x"))) /\
  fleb (Stats.q1 (column_stats (numeric_values data_one_to_five "x")))
       (Stats.median (column_stats (numeric_values data_one_to_five "x"))) /\
  fleb (Stats.median (column_stats (numeric_values data_one_to_five "x")))
       (Stats.q3 (column_stats (numeric_values data_one_to_five "x"))) /\
  fleb (Stats.q3 (column_stats (numeric_values data_one_to_five "x")))
       (Stats.max (column_stats (numeric_values data_one_to_five "x"))).
Proof.
  apply (C10_percentiles_ordered data_one_to_five ["x"] "x").
  - vm_compute. reflexivity.
  - reflexivity.
Defined.

(** ** Further lemmas on the analysis *)

Lemma no_nan_In (l : list float) (v : float) : no_nan l -> In v l -> is_nan v = false.
Proof. unfold no_nan. rewrite List.Forall_forall. auto. Qed.

Lemma eqb_ford (x y : float) :
  is_nan x = false -> is_nan y = false ->
  PrimFloat.eqb x y = (ford x =? ford y).
Proof.
  intros Nx Ny. rewrite is_nan_Prim2SF in Nx, Ny.
  rewrite FloatAxioms.eqb_spec. unfold SFeqb, ford.
  rewrite SFcompare_scaled by (auto using Prim2SF_valid).
  destruct (Z.compare_spec (scaled (Prim2SF x)) (scaled (Prim2SF y))) as [E | L | G];
    symmetry; [apply Z.eqb_eq; exact E | apply Z.eqb_neq; lia | apply Z.eqb_neq; lia].
Qed.

Lemma spec_type_number (Date_parse : value -> float) (v : value) :
  spec_type Date_parse v = number -> is_nan (parseFloat v) = false.
Proof.
  unfold spec_type.
  destruct (parses_as_finite_number v) eqn:P.
  - intros _. unfold parses_as_finite_number, isNaN in P.
    apply andb_true_iff in P as [P _]. apply negb_true_iff in P. exact P.
  - destruct v; try discriminate;
      destruct (typeof_boolean _ || is_true_or_false _); try discriminate;
      destruct (negb (isNaN (Date_parse _))); discriminate.
Qed.


Lemma analyzeRows_statistics_fit (Date_parse : value -> float) (results : list row)
      (r : AnalysisResult) :
  analyzeRows Date_parse results = Normal r -> statistics_fit r.
Proof.
  destruct results as [| first rest].
  - intros [= <-] c. split.
    + intros s H. discriminate.
    + intros H. discriminate.
  - intros H. apply analyzeRows_nonempty in H as (dt & Hdt & ->).
    apply inferDataTypes_inv in Hdt as [_ Hdt].
    intros c. unfold numericStats_of, dataTypes_of.
    cbn [numericStats dataTypes from_option columnNames rows]. unfold id.
    rewrite calculateNumericStats_lookup, Hdt. split.
    + intros s Hs. destruct (decide _) as [[I L] |]; [|discriminate].
      injection Hs as <-. split; [exact I|]. split.
      * rewrite decide_True by exact I. eexists. reflexivity.
      * cbn [Stats.count column_stats].
        pose proof (numeric_values_length (first :: rest) c). lia.
    + destruct (decide (In c (Object_keys first))) as [I |]; [|discriminate].
      intros [= T]. apply spec_type_number in T.
      rewrite decide_True; [eexists; reflexivity|].
      split; [exact I|]. apply length_pos_nonempty, numeric_values_nonempty.
      exists first. split; [left; reflexivity | exact T].
Qed.

(** A result of either orchestrator is a result of the analysis of some
    rows. *)
Lemma analyzeExcel_Normal (Date_parse : value -> float)
      (XLSX_load : string -> completion (list row)) (filePath : string)
      (r : AnalysisResult) :
  analyzeExcel Date_parse XLSX_load filePath = Normal r ->
  exists results, analyzeRows Date_parse results = Normal r.
Proof.
  unfold analyzeExcel. destruct (XLSX_load filePath) as [results | e]; [|discriminate].
  intros H. exists results. exact H.
Qed.

Lemma analyzeCSV_Fulfilled (Date_parse : value -> float) (events : list stream_event)
      (r : AnalysisResult) :
  analyzeCSV Date_parse events = Fulfilled r ->
  exists results, analyzeRows Date_parse results = Normal r.
Proof. intros H. apply analyzeCSV_on_fulfilled in H as [rs H]. eauto. Qed.

Lemma inferable_or_not (data : list row) (columns : list string) :
  (forall c, In c columns -> nonfinite_number (first_row_value data c) = false) \/
  exists c, In c columns /\ nonfinite_number (first_row_value data c) = true.
Proof.
  induction columns as [| c columns IH]; [left; intros c []|].
  destruct (nonfinite_number (first_row_value data c)) eqn:E.
  - right. exists c. split; [left; reflexivity | exact E].
  - destruct IH as [IH | (c' & I & E')].
    + left. intros c' [<- | I]; auto.
    + right. exists c'. split; [right; exact I | exact E'].
Qed.

Lemma inferDataTypes_throw_inv (Date_parse : value -> float) (data : list row)
      (columns : list string) (e : exn) :
  inferDataTypes Date_parse data columns = Throw e ->
  e = toLowerCase_TypeError /\
  exists c, In c columns /\ nonfinite_number (first_row_value data c) = true.
Proof.
  intros H. destruct (inferable_or_not data columns) as [T | (c & I & E)].
  - destruct (inferDataTypes_total Date_parse data columns T) as [dt Hdt]. congruence.
  - rewrite (inferDataTypes_throw Date_parse data columns c I E) in H.
    injection H as <-. eauto.
Qed.










(** *** Arrangements of the same numbers *)

Lemma filter_Permutation {A : Type} (p : A -> bool) (l l' : list A) :
  Permutation l l' -> Permutation (List.filter p l) (List.filter p l').
Proof.
  induction 1 as [| x l l' _ IH | x y l | l l' l'' _ IH1 _ IH2]; simpl.
  - constructor.
  - destruct (p x); [constructor|]; exact IH.
  - destruct (p x), (p y); try reflexivity. constructor.
  - etransitivity; eassumption.
Qed.

Lemma filter_length_Permutation {A : Type} (p : A -> bool) (l l' : list A) :
  Permutation l l' -> List.length (List.filter p l) = List.length (List.filter p l').
Proof. intros P. apply Permutation_length, filter_Permutation, P. Qed.

Lemma numeric_values_Permutation (data data' : list row) (column : string) :
  Permutation data data' ->
  Permutation (numeric_values data column) (numeric_values data' column).
Proof.
  intros P. unfold numeric_values. apply filter_Permutation, Permutation_map, P.
Qed.

Lemma sorted_Z_unique (l l' : list Z) :
  StronglySorted Z.le l -> StronglySorted Z.le l' -> Permutation l l' -> l = l'.
Proof.
  revert l'. induction l as [| x l IH]; intros l' S S' P.
  - apply Permutation_nil in P. subst l'. reflexivity.
  - destruct l' as [| x' l']; [apply Permutation_sym, Permutation_nil in P; discriminate|].
    apply StronglySorted_inv in S as [S F]. apply StronglySorted_inv in S' as [S' F'].
    rewrite List.Forall_forall in F, F'.
    assert (E : x = x').
    { assert (I : In x (x' :: l')) by (eapply Permutation_in; [exact P | left; reflexivity]).
      assert (I' : In x' (x :: l)).
      { eapply Permutation_in; [apply Permutation_sym, P | left; reflexivity]. }
      destruct I as [-> | I]; [reflexivity|].
      destruct I' as [-> | I']; [reflexivity|].
      pose proof (F _ I') as H1. pose proof (F' _ I) as H2. lia. }
    subst x'. f_equal. apply IH; [assumption | assumption |].
    eapply Permutation_cons_inv. exact P.
Qed.

Lemma sorted_map_ford (l : list float) :
  StronglySorted fle l -> StronglySorted Z.le (List.map ford l).
Proof.
  induction 1 as [| x l S IH F]; cbn [List.map]; constructor; [exact IH|].
  rewrite List.Forall_forall in *. intros z I.
  apply in_map_iff in I as (y & <- & I). exact (F y I).
Qed.

(** The sorted copies of two arrangements of the same numbers agree
    element by element, as numbers. *)
Lemma sort_Permutation_nth (values values' : list float) (i : nat) :
  no_nan values -> Permutation values values' ->
  ford (nth i (sort values) nan) = ford (nth i (sort values') nan).
Proof.
  intros N P.
  assert (N' : no_nan values') by (eapply no_nan_Permutation; eassumption).
  assert (E : List.map ford (sort values) = List.map ford (sort values')).
  { apply sorted_Z_unique;
      [apply sorted_map_ford, sort_sorted, N | apply sorted_map_ford, sort_sorted, N' |].
    apply Permutation_map.
    etransitivity; [apply sort_Permutation|].
    etransitivity; [exact P|]. apply Permutation_sym, sort_Permutation. }
  rewrite <- !(map_nth ford). rewrite E. reflexivity.
Qed.

Lemma sort_nth_no_nan (values : list float) (i : nat) :
  no_nan values -> (i < List.length values)%nat -> is_nan (nth i (sort values) nan) = false.
Proof.
  intros N Hi. apply (no_nan_In values); [exact N|].
  eapply Permutation_in; [apply sort_Permutation|].
  apply nth_In. rewrite sort_length. exact Hi.
Qed.

Lemma Math_min_Permutation (values values' : list float) :
  values <> [] -> no_nan values -> Permutation values values' ->
  ford (Math_min values) = ford (Math_min values').
Proof.
  intros Hne N P.
  assert (N' : no_nan values') by (eapply no_nan_Permutation; eassumption).
  assert (Hne' : values' <> []).
  { intros ->. apply Permutation_sym, Permutation_nil in P. contradiction. }
  destruct (Math_min_spec values Hne N) as [I F].
  destruct (Math_min_spec values' Hne' N') as [I' F'].
  rewrite List.Forall_forall in F, F'.
  pose proof (F' _ (Permutation_in _ P I)) as H1.
  pose proof (F _ (Permutation_in _ (Permutation_sym P) I')) as H2.
  unfold fle in *. lia.
Qed.

Lemma Math_max_Permutation (values values' : list float) :
  values <> [] -> no_nan values -> Permutation values values' ->
  ford (Math_max values) = ford (Math_max values').
Proof.
  intros Hne N P.
  assert (N' : no_nan values') by (eapply no_nan_Permutation; eassumption).
  assert (Hne' : values' <> []).
  { intros ->. apply Permutation_sym, Permutation_nil in P. contradiction. }
  destruct (Math_max_spec values Hne N) as [I F].
  destruct (Math_max_spec values' Hne' N') as [I' F'].
  rewrite List.Forall_forall in F, F'.
  pose proof (F' _ (Permutation_in _ P I)) as H1.
  pose proof (F _ (Permutation_in _ (Permutation_sym P) I')) as H2.
  unfold fle in *. lia.
Qed.

Lemma column_stats_Permutation (values values' : list float) :
  values <> [] -> no_nan values -> Z.of_nat (List.length values) < 2 ^ 32 ->
  Permutation values values' ->
  same_order_statistics (column_stats values) (column_stats values').
Proof.
  intros Hne N Hb P.
  assert (N' : no_nan values') by (eapply no_nan_Permutation; eassumption).
  assert (Hne' : values' <> []).
  { intros ->. apply Permutation_sym, Permutation_nil in P. contradiction. }
  pose proof (Permutation_length P) as L.
  assert (Hb' : Z.of_nat (List.length values') < 2 ^ 32) by (rewrite <- L; exact Hb).
  destruct (column_stats_percentiles values Hne Hb) as (Em & E1 & E3).
  destruct (column_stats_percentiles values' Hne' Hb') as (Em' & E1' & E3').
  assert (Lpos : (0 < List.length values)%nat) by (apply length_pos_nonempty, Hne).
  pose proof (percentile_index_in_range _ Lpos) as R.
  destruct (Math_min_spec values Hne N) as [Imin _].
  destruct (Math_min_spec values' Hne' N') as [Imin' _].
  destruct (Math_max_spec values Hne N) as [Imax _].
  destruct (Math_max_spec values' Hne' N') as [Imax' _].
  unfold same_order_statistics, same_number.
  rewrite Em, E1, E3, Em', E1', E3', <- L.
  split; [exact L|].
  split; [|split; [|split; [|split]]].
  - rewrite eqb_ford;
      [| apply (no_nan_In values); [exact N | exact Imin]
       | apply (no_nan_In values'); [exact N' | exact Imin'] ].
    apply Z.eqb_eq. apply Math_min_Permutation; assumption.
  - rewrite eqb_ford;
      [| apply (no_nan_In values); [exact N | exact Imax]
       | apply (no_nan_In values'); [exact N' | exact Imax'] ].
    apply Z.eqb_eq. apply Math_max_Permutation; assumption.
  - rewrite eqb_ford by (apply sort_nth_no_nan; [assumption | lia]).
    apply Z.eqb_eq. apply sort_Permutation_nth; assumption.
  - rewrite eqb_ford by (apply sort_nth_no_nan; [assumption | lia]).
    apply Z.eqb_eq. apply sort_Permutation_nth; assumption.
  - rewrite eqb_ford by (apply sort_nth_no_nan; [assumption | lia]).
    apply Z.eqb_eq. apply sort_Permutation_nth; assumption.
Qed.

(** *** Ranks in the sorted array *)

Lemma filter_length_all {A : Type} (p : A -> bool) (l : list A) :
  (forall x, In x l -> p x = true) -> List.length (List.filter p l) = List.length l.
Proof.
  induction l as [| x l IH]; intros H; [reflexivity|].
  cbn [List.filter]. rewrite H by (left; reflexivity). cbn [List.length].
  rewrite IH; [reflexivity|]. intros y I. apply H. right. exact I.
Qed.

Lemma In_firstn_nth {A : Type} (d : A) (l : list A) (k : nat) (x : A) :
  In x (firstn k l) -> exists j, (j < k)%nat /\ (j < List.length l)%nat /\ nth j l d = x.
Proof.
  revert k. induction l as [| y l IH]; intros k I.
  - rewrite firstn_nil in I. destruct I.
  - destruct k as [| k]; [destruct I|]. cbn [firstn] in I. destruct I as [-> | I].
    + exists 0%nat. cbn [List.length nth]. repeat split; lia.
    + destruct (IH k I) as (j & H1 & H2 & H3). exists (S j). cbn [List.length nth].
      repeat split; [lia | lia | exact H3].
Qed.

Lemma In_skipn_nth {A : Type} (d : A) (l : list A) (k : nat) (x : A) :
  In x (skipn k l) -> exists j, (k <= j)%nat /\ (j < List.length l)%nat /\ nth j l d = x.
Proof.
  revert k. induction l as [| y l IH]; intros k I.
  - rewrite skipn_nil in I. destruct I.
  - destruct k as [| k].
    + cbn [skipn] in I. apply (In_nth _ _ d) in I as (j & H1 & H2).
      exists j. repeat split; [lia | exact H1 | exact H2].
    + cbn [skipn] in I. destruct (IH k I) as (j & H1 & H2 & H3). exists (S j).
      cbn [List.length nth]. repeat split; [lia | lia | exact H3].
Qed.

(** In a sorted array the elements up to index [i] are at most the
    element at [i], and those from [i] on are at least it. *)
Lemma sorted_ranks (l : list float) (i : nat) :
  no_nan l -> StronglySorted fle l -> (i < List.length l)%nat ->
  (i + 1 <= count_le (nth i l nan) l)%nat /\
  (List.length l - i <= count_ge (nth i l nan) l)%nat.
Proof.
  intros N S Hi.
  assert (B : forall j, (j < List.length l)%nat -> is_nan (nth j l nan) = false).
  { intros j Hj. apply (no_nan_In l); [exact N | apply nth_In, Hj]. }
  assert (O : forall j k, (j <= k)%nat -> (k < List.length l)%nat ->
                          PrimFloat.leb (nth j l nan) (nth k l nan) = true).
  { intros j k Hjk Hk. apply leb_fle; [apply B; lia | apply B, Hk |].
    apply sorted_nth; assumption. }
  unfold count_le, count_ge. set (v := nth i l nan). split.
  - rewrite <- (firstn_skipn (i + 1) l). rewrite List.filter_app, List.length_app.
    rewrite filter_length_all.
    + rewrite List.length_firstn. lia.
    + intros x I. apply (In_firstn_nth nan) in I as (j & H1 & H2 & <-).
      apply O; [lia | exact Hi].
  - rewrite <- (firstn_skipn i l). rewrite List.filter_app, !List.length_app.
    rewrite (filter_length_all _ (skipn i l)).
    + rewrite List.length_firstn. lia.
    + intros x I. apply (In_skipn_nth nan) in I as (j & H1 & H2 & <-).
      apply O; [lia | exact H2].
Qed.

Lemma sort_ranks (values : list float) (i : nat) :
  no_nan values -> (i < List.length values)%nat ->
  (i + 1 <= count_le (nth i (sort values) nan) values)%nat /\
  (List.length values - i <= count_ge (nth i (sort values) nan) values)%nat.
Proof.
  intros N Hi.
  assert (N' : no_nan (sort values)).
  { eapply no_nan_Permutation; [apply Permutation_sym, sort_Permutation | exact N]. }
  pose proof (sorted_ranks (sort values) i N' (sort_sorted values N)) as H.
  rewrite sort_length in H. specialize (H Hi).
  unfold count_le, count_ge in *.
  rewrite !(filter_length_Permutation _ _ _ (sort_Permutation values)) in H. exact H.
Qed.

(** *** The ends of the sorted array *)

Lemma sort_head_min (values : list float) :
  values <> [] -> no_nan values ->
  ford (nth 0 (sort values) nan) = ford (Math_min values).
Proof.
  intros Hne N.
  pose proof (proj2 (length_pos_nonempty values) Hne) as L.
  destruct (Math_min_spec values Hne N) as [I F]. rewrite List.Forall_forall in F.
  assert (I0 : In (nth 0 (sort values) nan) values).
  { eapply Permutation_in; [apply sort_Permutation|]. apply nth_In. rewrite sort_length. lia. }
  pose proof (F _ I0) as H1.
  apply (Permutation_in _ (Permutation_sym (sort_Permutation values))) in I.
  apply (In_nth _ _ nan) in I as (j & Hj & E).
  pose proof (sorted_nth (sort values) nan 0 j (sort_sorted values N) ltac:(lia) Hj) as H2.
  rewrite E in H2. unfold fle in *. lia.
Qed.

Lemma sort_last_max (values : list float) :
  values <> [] -> no_nan values ->
  ford (nth (List.length values - 1) (sort values) nan) = ford (Math_max values).
Proof.
  intros Hne N.
  pose proof (proj2 (length_pos_nonempty values) Hne) as L.
  destruct (Math_max_spec values Hne N) as [I F]. rewrite List.Forall_forall in F.
  assert (I0 : In (nth (List.length values - 1) (sort values) nan) values).
  { eapply Permutation_in; [apply sort_Permutation|]. apply nth_In. rewrite sort_length. lia. }
  pose proof (F _ I0) as H1.
  apply (Permutation_in _ (Permutation_sym (sort_Permutation values))) in I.
  apply (In_nth _ _ nan) in I as (j & Hj & E).
  pose proof (sorted_nth (sort values) nan j (List.length values - 1)
                (sort_sorted values N)) as H2.
  rewrite sort_length in Hj, H2. specialize (H2 ltac:(lia) ltac:(lia)).
  rewrite E in H2. unfold fle in *. lia.
Qed.

(** *** Sums of finite numbers *)

Lemma shr_nonneg (mrs : shr_record) (e n : Z) :
  0 <= shr_m mrs -> 0 <= shr_m (fst (shr mrs e n)).
Proof.
  intros H. unfold shr. destruct n as [| p | p]; simpl fst; try exact H.
  rewrite shr_iter_m by exact H. apply Z.shiftr_nonneg. exact H.
Qed.

Lemma shr_fexp_nonneg (m e : Z) (l : location) :
  0 <= m -> 0 <= shr_m (fst (shr_fexp prec emax m e l)).
Proof.
  intros H. unfold shr_fexp. apply shr_nonneg. rewrite shr_record_of_loc_m. exact H.
Qed.

(** Rounding an integer that is not negative never gives [NaN]. *)
Lemma binary_round_aux_not_nan (s : bool) (m e : Z) (l : location) :
  0 <= m -> is_nan_SF (binary_round_aux prec emax s m e l) = false.
Proof.
  intros H. unfold binary_round_aux.
  pose proof (shr_fexp_nonneg m e l H) as H1.
  destruct (shr_fexp prec emax m e l) as [mrs' e']. simpl fst in H1.
  pose proof (round_nearest_even_ge (shr_m mrs') (loc_of_shr_record mrs')) as Hr.
  pose proof (shr_fexp_nonneg (round_nearest_even (shr_m mrs') (loc_of_shr_record mrs'))
                e' loc_Exact ltac:(lia)) as H2.
  destruct (shr_fexp prec emax _ e' loc_Exact) as [mrs'' e'']. simpl fst in H2.
  destruct (shr_m mrs'') as [| m2 | m2]; [reflexivity | | lia].
  destruct (e'' <=? emax - prec); reflexivity.
Qed.

Lemma binary_normalize_not_nan (m e : Z) (szero : bool) :
  is_nan_SF (binary_normalize prec emax m e szero) = false.
Proof.
  unfold binary_normalize, binary_round.
  destruct m as [| p | p]; [reflexivity | |];
    destruct (shl_align _ _ _) as [mz ez];
    apply binary_round_aux_not_nan; lia.
Qed.

Lemma is_finite_Prim2SF (x : float) : is_finite x = is_finite_SF (Prim2SF x).
Proof.
  unfold is_finite, is_infinity. rewrite is_nan_Prim2SF.
  rewrite FloatAxioms.eqb_spec, FloatAxioms.abs_spec.
  destruct (Prim2SF x) as [s | s | | s m e]; reflexivity.
Qed.

(** Adding a finite number to a number that is not [NaN] does not give
    [NaN]. *)
Lemma SFadd_not_nan (x y : spec_float) :
  is_nan_SF x = false -> is_finite_SF y = true ->
  is_nan_SF (SFadd prec emax x y) = false.
Proof.
  intros Nx Fy.
  destruct x as [sx | sx | | sx mx ex]; try discriminate;
    destruct y as [sy | sy | | sy my ey]; try discriminate; cbn [SFadd].
  - destruct sx, sy; reflexivity.
  - reflexivity.
  - reflexivity.
  - reflexivity.
  - reflexivity.
  - apply binary_normalize_not_nan.
Qed.

Lemma fold_add_not_nan (values : list float) (acc : float) :
  Forall (fun v => is_finite v = true) values -> is_nan acc = false ->
  is_nan (fold_left PrimFloat.add values acc) = false.
Proof.
  intros F. revert acc. induction F as [| v values Fv _ IH]; intros acc N; [exact N|].
  cbn [fold_left]. apply IH.
  rewrite is_nan_Prim2SF, FloatAxioms.add_spec.
  apply SFadd_not_nan; [rewrite <- is_nan_Prim2SF; exact N|].
  rewrite <- is_finite_Prim2SF. exact Fv.
Qed.

Lemma SFdiv_core_binary_nonneg (mx my : positive) (ex ey : Z) :
  0 <= fst (fst (SFdiv_core_binary prec emax (Zpos mx) ex (Zpos my) ey)).
Proof.
  unfold SFdiv_core_binary. cbv zeta.
  set (s := ex - ey - _).
  set (m' := match s with 0 => Zpos mx | Zpos _ => Z.shiftl (Zpos mx) s | Zneg _ => 0 end).
  assert (Hm : 0 <= m').
  { unfold m'. destruct s; [lia | apply Z.shiftl_nonneg; lia | lia]. }
  pose proof (Z.div_pos m' (Zpos my) Hm ltac:(lia)) as Hq. unfold Z.div in Hq.
  destruct (Z.div_eucl m' (Zpos my)) as [q r]. exact Hq.
Qed.

(** Dividing a number that is not [NaN] by a finite number that is not
    zero does not give [NaN]. *)
Lemma SFdiv_not_nan (x : spec_float) (s : bool) (m : positive) (e : Z) :
  is_nan_SF x = false ->
  is_nan_SF (SFdiv prec emax x (S754_finite s m e)) = false.
Proof.
  intros Nx. destruct x as [sx | sx | | sx mx ex]; try discriminate; cbn [SFdiv];
    try reflexivity.
  pose proof (SFdiv_core_binary_nonneg mx m ex e) as H.
  destruct (SFdiv_core_binary prec emax (Zpos mx) ex (Zpos m) e) as [[mz ez] lz].
  apply binary_round_aux_not_nan. exact H.
Qed.

Lemma column_stats_finite (values : list float) :
  values <> [] -> Z.of_nat (List.length values) < 2 ^ 32 ->
  Forall (fun v => is_finite v = true) values ->
  is_nan (Stats.sum (column_stats values)) = false /\
  is_nan (Stats.mean (column_stats values)) = false.
Proof.
  intros Hne Hb F.
  assert (S : is_nan (reduce_sum values) = false).
  { apply fold_add_not_nan; [exact F | reflexivity]. }
  split; [exact S|].
  cbn [Stats.mean column_stats].
  rewrite is_nan_Prim2SF, FloatAxioms.div_spec.
  rewrite Prim2SF_float_of_nat; [| apply length_pos_nonempty, Hne | lia].
  apply SFdiv_not_nan. rewrite <- is_nan_Prim2SF. exact S.
Qed.

(** *** Blank cells *)

Lemma whitespace_lower (c : ascii) : is_StrWhiteSpaceChar c = true -> lower_char c = c.
Proof.
  destruct c as [[] [] [] [] [] [] [] []]; intros H; try reflexivity;
    vm_compute in H; discriminate.
Qed.

Lemma blank_cases (s : string) :
  blank s ->
  s = EmptyString \/ exists c s', s = String c s' /\ is_StrWhiteSpaceChar c = true.
Proof.
  unfold blank. destruct s as [| c s']; [left; reflexivity|]. cbn [trim_start].
  destruct (is_StrWhiteSpaceChar c) eqn:W; [|discriminate].
  intros _. right. eauto.
Qed.

Lemma blank_not_boolean (s : string) :
  blank s ->
  String.eqb (toLowerCase s) "true" = false /\ String.eqb (toLowerCase s) "false" = false.
Proof.
  intros B. destruct (blank_cases s B) as [-> | (c & s' & -> & W)]; [split; reflexivity|].
  cbn [toLowerCase]. rewrite (whitespace_lower c W).
  split; apply String.eqb_neq; intros [= -> _]; discriminate.
Qed.

Lemma blank_parseFloat (s : string) : blank s -> parseFloat (VStr s) = nan.
Proof.
  unfold blank. intros B. cbn [parseFloat]. unfold parseFloat_string. rewrite B. reflexivity.
Qed.

(** *** Sums of integers *)

Lemma shl_align_noop (m : positive) (e e' : Z) : e <= e' -> shl_align m e e' = (m, e).
Proof.
  intros H. unfold shl_align. destruct (e' - e) as [| d | d] eqn:E; try reflexivity. lia.
Qed.

Lemma digits2_pos_shift (z : positive) (j : Z) :
  0 <= j ->
  Zpos (digits2_pos (Z.to_pos (Zpos z * 2 ^ j))) = Zpos (digits2_pos z) + j.
Proof.
  intros Hj. destruct j as [| k | k]; [| | lia].
  - rewrite Z.pow_0_r, Z.mul_1_r. simpl Z.to_pos. lia.
  - rewrite <- iter_xO_value. simpl Z.to_pos. rewrite digits2_pos_iter_xO. lia.
Qed.

Lemma to_pos_shift (z : positive) (j : Z) :
  0 <= j -> Zpos (Z.to_pos (Zpos z * 2 ^ j)) = Zpos z * 2 ^ j.
Proof.
  intros Hj. apply Z2Pos.id. apply Z.mul_pos_pos; [lia | apply Z.pow_pos_nonneg; lia].
Qed.

(** Normalising an integer of at most 53 bits that carries [j] low zero
    bits is exact. *)
Lemma binary_round_integer (s : bool) (z : positive) (j : Z) :
  0 <= j -> Zpos z < 2 ^ 53 ->
  binary_round prec emax s (Z.to_pos (Zpos z * 2 ^ j)) (- j) = norm s z 0.
Proof.
  intros Hj Hz. pose proof (digits_le_53 z Hz) as Hd.
  pose proof (digits2_pos_bounds z) as [_ Hu].
  assert (Hd1 : 1 <= Zpos (digits2_pos z)) by lia.
  unfold binary_round. rewrite digits2_pos_shift by exact Hj.
  assert (F : fexp prec emax (Zpos (digits2_pos z) + j + - j) = Zpos (digits2_pos z) - 53).
  { unfold fexp, SpecFloat.emin, prec, emax. lia. }
  rewrite F.
  destruct (Z.le_gt_cases (Zpos (digits2_pos z) - 53) (- j)) as [L | G].
  - destruct (shl_align_value (Z.to_pos (Zpos z * 2 ^ j)) (- j) (Zpos (digits2_pos z) - 53) L)
      as [Hm He].
    destruct (shl_align _ _ _) as [mz ez]. simpl fst in Hm; simpl snd in He. subst ez.
    rewrite Hm, to_pos_shift by exact Hj.
    rewrite <- Z.mul_assoc, <- Z.pow_add_r by lia.
    rewrite round_norm by lia. f_equal. lia.
  - rewrite shl_align_noop by lia. rewrite to_pos_shift by exact Hj.
    rewrite round_norm by lia. f_equal. lia.
Qed.

Lemma binary_normalize_integer (n j : Z) :
  0 <= j -> Z.abs n < 2 ^ 53 ->
  SFint n (binary_normalize prec emax (n * 2 ^ j) (- j) false).
Proof.
  intros Hj Hn. assert (P : 0 < 2 ^ j) by (apply Z.pow_pos_nonneg; lia).
  destruct n as [| p | p].
  - exists false. reflexivity.
  - cbn [SFint]. replace (Zpos p * 2 ^ j) with (Zpos (Z.to_pos (Zpos p * 2 ^ j)))
      by (apply to_pos_shift, Hj).
    cbn [binary_normalize]. apply binary_round_integer; [exact Hj | lia].
  - cbn [SFint]. replace (Zneg p * 2 ^ j) with (Zneg (Z.to_pos (Zpos p * 2 ^ j))).
    + cbn [binary_normalize]. apply binary_round_integer; [exact Hj | lia].
    + rewrite <- Pos2Z.opp_pos, to_pos_shift by exact Hj. lia.
Qed.

Lemma SFadd_norm (sa sb : bool) (pa pb : positive) :
  Zpos pa < 2 ^ 53 -> Zpos pb < 2 ^ 53 ->
  exists j, 0 <= j /\
    SFadd prec emax (norm sa pa 0) (norm sb pb 0)
    = binary_normalize prec emax
        ((cond_Zopp sa (Zpos pa) + cond_Zopp sb (Zpos pb)) * 2 ^ j) (- j) false.
Proof.
  intros Ha Hb.
  pose proof (digits_le_53 pa Ha) as Da. pose proof (digits_le_53 pb Hb) as Db.
  unfold norm. cbn [SFadd].
  set (ea := 0 - (53 - Zpos (digits2_pos pa))).
  set (eb := 0 - (53 - Zpos (digits2_pos pb))).
  set (ez := Z.min ea eb).
  assert (Hez : ez <= ea /\ ez <= eb /\ ez <= 0) by (unfold ez, ea, eb; lia).
  destruct Hez as (Hza & Hzb & Hz0).
  exists (- ez). split; [lia|].
  destruct (shl_align_value (nm pa) ea ez Hza) as [Va _].
  destruct (shl_align_value (nm pb) eb ez Hzb) as [Vb _].
  rewrite Va, Vb, Z.opp_involutive, !nm_value by assumption.
  f_equal.
  assert (Ea : Zpos pa * 2 ^ (53 - Zpos (digits2_pos pa)) * 2 ^ (ea - ez) = Zpos pa * 2 ^ (- ez)).
  { rewrite <- Z.mul_assoc, <- Z.pow_add_r by (unfold ea; lia). do 2 f_equal. unfold ea. lia. }
  assert (Eb : Zpos pb * 2 ^ (53 - Zpos (digits2_pos pb)) * 2 ^ (eb - ez) = Zpos pb * 2 ^ (- ez)).
  { rewrite <- Z.mul_assoc, <- Z.pow_add_r by (unfold eb; lia). do 2 f_equal. unfold eb. lia. }
  rewrite Ea, Eb, !cond_Zopp_mul. ring.
Qed.

Lemma SFint_norm (s : bool) (p : positive) : SFint (cond_Zopp s (Zpos p)) (norm s p 0).
Proof. destruct s; reflexivity. Qed.

Lemma SFint_inv (n : Z) (x : spec_float) :
  SFint n x ->
  (n = 0 /\ exists s, x = S754_zero s) \/
  (exists s p, n = cond_Zopp s (Zpos p) /\ x = norm s p 0).
Proof.
  destruct n as [| p | p]; cbn [SFint]; intros H.
  - left. auto.
  - right. exists false, p. auto.
  - right. exists true, p. auto.
Qed.

(** The sum of two integers, when it fits in 53 bits, is computed
    exactly. *)
Lemma SFadd_integers (a b : Z) (x y : spec_float) :
  Z.abs a < 2 ^ 53 -> Z.abs b < 2 ^ 53 -> Z.abs (a + b) < 2 ^ 53 ->
  SFint a x -> SFint b y -> SFint (a + b) (SFadd prec emax x y).
Proof.
  intros Ha Hb Hab Ia Ib.
  apply SFint_inv in Ia as [[-> [sa ->]] | (sa & pa & -> & ->)];
    apply SFint_inv in Ib as [[-> [sb ->]] | (sb & pb & -> & ->)].
  - change (0 + 0) with 0. cbn [SFadd SFint]. destruct sa, sb; eauto.
  - rewrite Z.add_0_l.
    replace (SFadd prec emax (S754_zero sa) (norm sb pb 0)) with (norm sb pb 0) by reflexivity.
    apply SFint_norm.
  - rewrite Z.add_0_r.
    replace (SFadd prec emax (norm sa pa 0) (S754_zero sb)) with (norm sa pa 0) by reflexivity.
    apply SFint_norm.
  - destruct (SFadd_norm sa sb pa pb) as (j & Hj & ->).
    + destruct sa; cbn [cond_Zopp] in Ha; lia.
    + destruct sb; cbn [cond_Zopp] in Hb; lia.
    + apply binary_normalize_integer; assumption.
Qed.

Lemma SFinteger_value_norm_sign (s : bool) (q : positive) :
  Zpos q < 2 ^ 53 -> SFinteger_value (norm s q 0) = Some (cond_Zopp s (Zpos q)).
Proof.
  intros Hq. pose proof (digits_le_53 q Hq) as Hd.
  unfold norm, SFinteger_value. cbv zeta. rewrite nm_value by assumption.
  set (a := 53 - Zpos (digits2_pos q)). assert (0 <= a) by (unfold a; lia).
  destruct (Z.leb_spec 0 (0 - a)).
  - replace a with 0 by lia.
    rewrite Z.sub_diag, Z.shiftl_0_r, Z.pow_0_r, Z.mul_1_r. reflexivity.
  - replace (- (0 - a)) with (a + 0) by lia.
    rewrite shift_cancel by lia. rewrite Z.pow_0_r, Z.div_1_r.
    rewrite Z.shiftl_mul_pow2 by lia. replace (a + 0) with a by lia.
    rewrite Z.eqb_refl. reflexivity.
Qed.

Lemma SFinteger_value_SFint (n : Z) (x : spec_float) :
  Z.abs n < 2 ^ 53 -> SFint n x -> SFinteger_value x = Some n.
Proof.
  intros Hn I. apply SFint_inv in I as [[-> [s ->]] | (s & p & -> & ->)]; [reflexivity|].
  apply SFinteger_value_norm_sign. destruct s; cbn [cond_Zopp] in Hn; lia.
Qed.

Lemma cond_Zopp_abs (s : bool) (z : Z) : Z.abs (cond_Zopp s z) = Z.abs z.
Proof. destruct s; cbn [cond_Zopp]; lia. Qed.

(** A number that denotes an integer of at most 53 bits is the
    representation of that integer. *)
Lemma SFint_of_integer_value (n : Z) (x : spec_float) :
  valid_binary x = true -> SFinteger_value x = Some n -> Z.abs n < 2 ^ 53 -> SFint n x.
Proof.
  intros V H Hn. destruct x as [s | s | | s m e]; try discriminate.
  - injection H as <-. exists s. reflexivity.
  - cbn [valid_binary] in V. apply bounded_inv in V as (He & Hd & Hnorm).
    pose proof (digits2_pos_bounds m) as [Hl Hu].
    cbn [SFinteger_value] in H. destruct (Z.leb_spec 0 e) as [P | P].
    + injection H as <-. rewrite cond_Zopp_abs, Z.shiftl_mul_pow2 in Hn by exact P.
      rewrite Hnorm in Hl by lia. change (2 ^ (53 - 1)) with 4503599627370496 in Hl.
      assert (e = 0).
      { destruct (Z.eq_dec e 0) as [|N]; [assumption|].
        assert (2 ^ 1 <= 2 ^ e) by (apply Z.pow_le_mono_r; lia).
        change (2 ^ 1) with 2 in *. change (2 ^ 53) with 9007199254740992 in *.
        rewrite Z.abs_eq in Hn by lia. nia. }
      subst e. rewrite Z.shiftl_0_r.
      replace (S754_finite s m 0) with (norm s m 0); [apply SFint_norm|].
      unfold norm, nm. rewrite Hnorm by lia.
      change (53 - 53) with 0. rewrite Z.pow_0_r, Z.mul_1_r. reflexivity.
    + cbv zeta in H.
      destruct (Z.eqb_spec (Z.shiftl (Z.shiftr (Zpos m) (- e)) (- e)) (Zpos m)) as [E |];
        [|discriminate].
      injection H as <-. set (q := Z.shiftr (Zpos m) (- e)) in *.
      rewrite Z.shiftl_mul_pow2 in E by lia.
      assert (Pq : 0 < 2 ^ (- e)) by (apply Z.pow_pos_nonneg; lia).
      assert (Hq : 0 < q) by nia.
      destruct q as [| q | q]; try lia.
      assert (D : Zpos (digits2_pos m) = Zpos (digits2_pos q) + - e).
      { rewrite <- (digits2_pos_shift q (- e)) by lia. rewrite E. reflexivity. }
      assert (Ne : -1074 < e).
      { pose proof (digits2_pos_bounds q). lia. }
      rewrite Hnorm in D by exact Ne.
      replace (S754_finite s m e) with (norm s q 0); [apply SFint_norm|].
      unfold norm, nm. replace (53 - Zpos (digits2_pos q)) with (- e) by lia.
      rewrite E. f_equal. lia.
Qed.

Lemma sum_abs_nonneg (ns : list Z) : 0 <= sum_abs ns.
Proof. induction ns as [| n ns IH]; cbn [sum_abs fold_right]; [lia|]. fold (sum_abs ns). lia. Qed.

Lemma sum_Z_abs (ns : list Z) : Z.abs (sum_Z ns) <= sum_abs ns.
Proof.
  induction ns as [| n ns IH]; cbn [sum_abs sum_Z fold_right]; [lia|].
  fold (sum_abs ns). fold (sum_Z ns). lia.
Qed.

Lemma fold_add_integers (values : list float) (ns : list Z) (acc : float) (a : Z) :
  Forall2 (fun v n => integer_value v = Some n) values ns ->
  SFint a (Prim2SF acc) ->
  Z.abs a + sum_abs ns < 2 ^ 53 ->
  SFint (a + sum_Z ns) (Prim2SF (fold_left PrimFloat.add values acc)).
Proof.
  intros F. revert acc a. induction F as [| v n values ns Hv _ IH]; intros acc a Ia Hb.
  - cbn [fold_left sum_Z fold_right]. rewrite Z.add_0_r. exact Ia.
  - cbn [fold_left sum_Z sum_abs fold_right] in *. fold (sum_abs ns) in Hb. fold (sum_Z ns).
    pose proof (sum_abs_nonneg ns) as P.
    rewrite Z.add_assoc. apply IH; [|lia].
    rewrite FloatAxioms.add_spec. apply SFadd_integers; try lia; [exact Ia|].
    apply SFint_of_integer_value; [apply Prim2SF_valid | exact Hv | lia].
Qed.

Lemma reduce_sum_integers (values : list float) (ns : list Z) :
  Forall2 (fun v n => integer_value v = Some n) values ns ->
  sum_abs ns < 2 ^ 53 ->
  integer_value (reduce_sum values) = Some (sum_Z ns).
Proof.
  intros F Hb. unfold integer_value, reduce_sum.
  pose proof (sum_Z_abs ns).
  apply SFinteger_value_SFint; [lia|].
  apply (fold_add_integers _ ns zero 0 F); [exists false; reflexivity | lia].
Qed.

(** *** A column of one value *)

(** Dividing by 1 is exact. *)
Lemma SFdiv_one (x : spec_float) :
  valid_binary x = true -> is_nan_SF x = false ->
  SFdiv prec emax x (norm false 1 0) = x.
Proof.
  intros V N. destruct x as [s | s | | s m e]; try discriminate.
  - cbn [SFdiv norm]. rewrite xorb_false_r. reflexivity.
  - cbn [SFdiv norm]. rewrite xorb_false_r. reflexivity.
  - cbn [valid_binary] in V. pose proof V as B. apply bounded_inv in B as (He & Hd & Hn).
    change (norm false 1 0) with (S754_finite false 4503599627370496 (-52)).
    cbn [SFdiv]. unfold SFdiv_core_binary.
    change (Zdigits2 (Zpos 4503599627370496)) with 53.
    change (Zdigits2 (Zpos m)) with (Zpos (digits2_pos m)).
    set (e' := Z.min (fexp prec emax (Zpos (digits2_pos m) + e - (53 + -52))) (e - -52)).
    assert (K : e' = e - 1 \/ e' = e).
    { unfold e', fexp, SpecFloat.emin, prec, emax.
      destruct (Z.eq_dec e (-1074)) as [-> | Ne]; [right; lia|].
      left. rewrite Hn by lia. lia. }
    assert (D : forall k, 0 <= k ->
                Z.div_eucl (Z.shiftl (Zpos m) (52 + k)) 4503599627370496
                = (Zpos m * 2 ^ k, 0)).
    { intros k Hk. rewrite Z.shiftl_mul_pow2 by lia.
      rewrite (Z.pow_add_r 2 52 k) by lia. change (2 ^ 52) with 4503599627370496.
      replace (Zpos m * (4503599627370496 * 2 ^ k))
        with (Zpos m * 2 ^ k * 4503599627370496) by ring.
      pose proof (Z.div_mul (Zpos m * 2 ^ k) 4503599627370496) as Hq.
      pose proof (Z.mod_mul (Zpos m * 2 ^ k) 4503599627370496) as Hr.
      unfold Z.div, Z.modulo in Hq, Hr.
      destruct (Z.div_eucl (Zpos m * 2 ^ k * 4503599627370496) 4503599627370496) as [q r].
      rewrite Hq, Hr by lia. reflexivity. }
    rewrite xorb_false_r.
    destruct K as [K | K]; rewrite K.
    + replace (e - -52 - (e - 1)) with 53 by lia. cbv beta iota zeta.
      pose proof (D 1 ltac:(lia)) as D1. change (52 + 1) with 53 in D1. rewrite D1. change (new_location 4503599627370496 0) with loc_Exact.
      rewrite binary_round_aux_exact; [f_equal; lia | lia |].
      replace (e - 1 + 1) with e by lia. exact V.
    + replace (e - -52 - e) with 52 by lia. cbv beta iota zeta.
      pose proof (D 0 ltac:(lia)) as D0. change (52 + 0) with 52 in D0. rewrite D0. change (new_location 4503599627370496 0) with loc_Exact.
      rewrite binary_round_aux_exact; [f_equal; lia | lia |].
      replace (e + 0) with e by lia. exact V.
Qed.

(** Adding a number to [+0] gives that number. *)
Lemma SFadd_zero (x : spec_float) :
  valid_binary x = true -> is_nan_SF x = false ->
  valid_binary (SFadd prec emax (S754_zero false) x) = true /\
  is_nan_SF (SFadd prec emax (S754_zero false) x) = false /\
  SFeqb (SFadd prec emax (S754_zero false) x) x = true.
Proof.
  intros V N. destruct x as [s | s | | s m e]; try discriminate; cbn [SFadd].
  - destruct s; repeat split; reflexivity.
  - repeat split; try assumption. unfold SFeqb. rewrite SFcompare_refl by assumption. reflexivity.
  - repeat split; try assumption. unfold SFeqb. rewrite SFcompare_refl by assumption. reflexivity.
Qed.

Lemma single_value_sum_mean (v : float) :
  is_nan v = false ->
  same_number (Stats.sum (column_stats [v])) v /\
  same_number (Stats.mean (column_stats [v])) v.
Proof.
  intros N. rewrite is_nan_Prim2SF in N.
  destruct (SFadd_zero (Prim2SF v) (Prim2SF_valid v) N) as (V' & N' & E).
  unfold same_number. cbn [Stats.sum Stats.mean column_stats reduce_sum fold_left List.length].
  rewrite !FloatAxioms.eqb_spec, FloatAxioms.div_spec, !FloatAxioms.add_spec.
  change (Prim2SF zero) with (S754_zero false).
  split; [exact E|].
  rewrite (Prim2SF_float_of_nat 1) by (try reflexivity; lia).
  change (Pos.of_nat 1) with 1%positive.
  rewrite SFdiv_one by assumption. exact E.
Qed.

(** *** Numerals *)


















(** ** Lemmas on the upload route *)

(** The digits of a number end where the first ["-"] stands. *)
Lemma string_of_uint_dash (d d' : Decimal.uint) (s s' : string) :
  (NilEmpty.string_of_uint d ++ String "-" s)%string
  = (NilEmpty.string_of_uint d' ++ String "-" s')%string ->
  d = d' /\ s = s'.
Proof.
  revert d'. induction d as [| d IH | d IH | d IH | d IH | d IH | d IH | d IH | d IH | d IH | d IH];
    intros d'; destruct d'; cbn [NilEmpty.string_of_uint String.append]; intros H;
    try discriminate;
    try (injection H as H; destruct (IH _ H) as [-> ->]; split; reflexivity).
  injection H as ->. split; reflexivity.
Qed.

(** A timer never raises: its callback removes the file if it is
    there. *)
Lemma cleanup_Ok (p : string) (w : world) : cleanup p w = Ok (without p w).
Proof.
  unfold cleanup, unlinkSync, without. destruct (existsSync p w) eqn:E; [reflexivity|].
  destruct w as [fs ts]. cbn [files timers]. f_equal. f_equal.
  unfold existsSync in E. apply bool_decide_eq_false in E. cbn [files] in E.
  apply set_eq. intros x. rewrite elem_of_difference, elem_of_singleton.
  split; [intros H; split; [exact H | intros ->; contradiction] | intros [H _]; exact H].
Qed.

Lemma fire_Ok (pending : list string) (w : world) :
  fire pending w = Ok {| files := files w ∖ list_to_set pending; timers := timers w |}.
Proof.
  revert w. induction pending as [| p pending IH]; intros w.
  - cbn [fire]. destruct w as [fs ts]. cbn [files timers]. f_equal. f_equal.
    apply set_eq. intros x. rewrite elem_of_difference, elem_of_list_to_set, elem_of_nil.
    tauto.
  - cbn [fire]. rewrite cleanup_Ok, IH. cbn [files timers without]. f_equal. f_equal.
    apply set_eq. intros x.
    rewrite !elem_of_difference, !elem_of_list_to_set, elem_of_cons, elem_of_singleton.
    tauto.
Qed.

Lemma fire_timers_Ok (w : world) :
  fire_timers w = Ok {| files := files w ∖ list_to_set (timers w); timers := [] |}.
Proof. unfold fire_timers. rewrite fire_Ok. reflexivity. Qed.

(** The [catch] block always responds. *)
Lemma catch_block_responds (req_file : option file) (error : route_error) (w : world) :
  catch_block req_file error w
  = (Responded (failure_response (error_message error)),
     match req_file with
     | Some f => without (path f) w
     | None => w
     end).
Proof.
  unfold catch_block. destruct req_file as [f |]; [|reflexivity].
  change (if existsSync (path f) w then unlinkSync (path f) w else Ok w)
    with (cleanup (path f) w).
  rewrite cleanup_Ok. reflexivity.
Qed.

Lemma includes_allowedTypes (ext : string) :
  includes allowedTypes ext
  = String.eqb ext ".csv" || (String.eqb ext ".xlsx" || String.eqb ext ".xls").
Proof. unfold includes, allowedTypes. cbn [existsb]. rewrite orb_false_r. reflexivity. Qed.

Section RouteLemmas.

Variable path_extname : string -> string.
Variable Date_parse : value -> float.
Variable XLSX_load : string -> completion (list row).
Variable CSV_events : string -> list stream_event.

Lemma fileFilter_Accept (name : string) :
  fileFilter path_extname name = Accept ->
  toLowerCase (path_extname name) = ".csv" \/
  toLowerCase (path_extname name) = ".xlsx" \/
  toLowerCase (path_extname name) = ".xls".
Proof.
  unfold fileFilter. cbv zeta. rewrite includes_allowedTypes.
  destruct (String.eqb_spec (toLowerCase (path_extname name)) ".csv") as [E | _]; [auto|].
  destruct (String.eqb_spec (toLowerCase (path_extname name)) ".xlsx") as [E | _]; [auto|].
  destruct (String.eqb_spec (toLowerCase (path_extname name)) ".xls") as [E | _]; [auto|].
  discriminate.
Qed.

Lemma fileFilter_Refuse (name : string) (error : route_error) :
  fileFilter path_extname name = Refuse error ->
  error = PlainError "Invalid file type. Please upload CSV or Excel files.".
Proof.
  unfold fileFilter. cbv zeta. destruct (includes _ _); [discriminate|].
  intros [= <-]. reflexivity.
Qed.

(** The handler on an upload the filter accepts. *)
Lemma upload_handler_accepted (f : file) (w : world) :
  fileFilter path_extname (originalname f) = Accept ->
  upload_handler path_extname Date_parse XLSX_load CSV_events (Some f) w
  = (if String.eqb (toLowerCase (path_extname (originalname f))) ".csv"
     then match analyzeCSV Date_parse (CSV_events (path f)) with
          | Fulfilled analysisResult => respond_analysis f analysisResult w
          | Rejected e => catch_block (Some f) (AnalysisError e) w
          | Pending => (Waiting, w)
          | Uncaught e => (Escaped (AnalysisError e), w)
          end
     else match analyzeExcel Date_parse XLSX_load (path f) with
          | Normal analysisResult => respond_analysis f analysisResult w
          | Throw e => catch_block (Some f) (AnalysisError e) w
          end).
Proof.
  intros A. apply fileFilter_Accept in A. unfold upload_handler. cbv zeta.
  destruct (String.eqb_spec (toLowerCase (path_extname (originalname f))) ".csv") as [E | N];
    [reflexivity|].
  destruct A as [A | [A | A]]; [contradiction | |]; rewrite A; reflexivity.
Qed.

(** The handler on an upload the filter does not accept. *)
Lemma upload_handler_other (f : file) (w : world) :
  fileFilter path_extname (originalname f) <> Accept ->
  upload_handler path_extname Date_parse XLSX_load CSV_events (Some f) w
  = match unlinkSync (path f) w with
    | Ok w' => (Responded unsupported_response, w')
    | Raise error => catch_block (Some f) error w
    end.
Proof.
  unfold fileFilter, upload_handler. cbv zeta. rewrite includes_allowedTypes.
  destruct (String.eqb _ ".csv"); [intros H; exfalso; apply H; reflexivity|].
  destruct (String.eqb _ ".xlsx" || String.eqb _ ".xls");
    [intros H; exfalso; apply H; reflexivity|].
  reflexivity.
Qed.

(** The ways a run of the handler on an upload can end. *)
Lemma upload_handler_cases (f : file) (w : world) :
  (exists a, upload_handler path_extname Date_parse XLSX_load CSV_events (Some f) w
             = (Responded (analysis_response f a), setTimeout_cleanup (path f) w)) \/
  (exists error, upload_handler path_extname Date_parse XLSX_load CSV_events (Some f) w
                 = (Responded (failure_response (error_message error)), without (path f) w)) \/
  ((path f ∈ files w) /\
   upload_handler path_extname Date_parse XLSX_load CSV_events (Some f) w
   = (Responded unsupported_response, without (path f) w)) \/
  upload_handler path_extname Date_parse XLSX_load CSV_events (Some f) w = (Waiting, w) \/
  (exists error, upload_handler path_extname Date_parse XLSX_load CSV_events (Some f) w
                 = (Escaped error, w)).
Proof.
  unfold upload_handler. cbv zeta.
  destruct (String.eqb _ ".csv").
  - destruct (analyzeCSV _ _) as [| a | e | e].
    + right. right. right. left. reflexivity.
    + left. exists a. reflexivity.
    + right. left. exists (AnalysisError e). apply catch_block_responds.
    + right. right. right. right. eexists. reflexivity.
  - destruct (String.eqb _ ".xlsx" || String.eqb _ ".xls").
    + destruct (analyzeExcel _ _ _) as [a | e].
      * left. exists a. reflexivity.
      * right. left. exists (AnalysisError e). apply catch_block_responds.
    + unfold unlinkSync, existsSync. destruct (bool_decide (path f ∈ files w)) eqn:E.
      * right. right. left. apply bool_decide_eq_true in E. split; [exact E | reflexivity].
      * right. left. eexists. apply catch_block_responds.
Qed.




End RouteLemmas.

(** *** The check of the client *)

Lemma toLowerCase_app (s t : string) :
  toLowerCase (s ++ t) = (toLowerCase s ++ toLowerCase t)%string.
Proof.
  induction s as [| c s IH]; [reflexivity|].
  change (String c s ++ t)%string with (String c (s ++ t)).
  cbn [toLowerCase]. rewrite IH. reflexivity.
Qed.

Lemma length_append (s t : string) :
  String.length (s ++ t) = (String.length s + String.length t)%nat.
Proof.
  induction s as [| c s IH]; [reflexivity|].
  change (String c s ++ t)%string with (String c (s ++ t)).
  cbn [String.length]. rewrite IH. reflexivity.
Qed.

Lemma substring_all (t : string) : substring 0 (String.length t) t = t.
Proof.
  induction t as [| c t IH]; cbn [substring String.length]; [reflexivity|].
  rewrite IH. reflexivity.
Qed.

Lemma substring_append (s t : string) :
  substring (String.length s) (String.length t) (s ++ t) = t.
Proof.
  induction s as [| c s IH].
  - apply substring_all.
  - change (String c s ++ t)%string with (String c (s ++ t)).
    cbn [String.length substring]. exact IH.
Qed.

Lemma endsWith_append (s t : string) : endsWith (s ++ t) t = true.
Proof.
  unfold endsWith. cbv zeta. rewrite length_append.
  replace (String.length s + String.length t - String.length t)%nat
    with (String.length s) by lia.
  rewrite substring_append, String.eqb_refl.
  apply andb_true_iff. split; [apply Nat.leb_le; lia | reflexivity].
Qed.

(** ** Further properties of the code *)

(** X1. In every result the analysis produces, the statistics fit the
    other fields: every key of [numericStats] is one of the column names
    and has an inferred type, the [count] of its record is at least 1 and
    at most [rows], and every column typed [number] has a record of
    statistics. *)
Theorem X1_statistics_fit (Date_parse : value -> float) :
  (forall (XLSX_load : string -> completion (list row)) filePath r,
      analyzeExcel Date_parse XLSX_load filePath = Normal r -> statistics_fit r) /\
  (forall events r,
      analyzeCSV Date_parse events = Fulfilled r -> statistics_fit r).
Proof.
  split.
  - intros XLSX_load filePath r H. apply analyzeExcel_Normal in H as [results H].
    eapply analyzeRows_statistics_fit. exact H.
  - intros events r H. apply analyzeCSV_Fulfilled in H as [results H].
    eapply analyzeRows_statistics_fit. exact H.
Qed.

Lemma X1_witness :
  statistics_fit
    (full_result sample_rows ["name"; "age"]
       (<["age" := number]> (<["name" := string_]> ∅))).
Proof.
  apply (proj1 (X1_statistics_fit Date_parse_iso_only) sample_loader "book.xlsx").
  vm_compute. reflexivity.
Defined.







(** X5. The statistics of a column that are read off the values in
    order do not depend on the order of the rows: for two arrangements
    of the same rows the column is a key of both maps or of none, and
    [count], [min], [max], [median], [q1] and [q3] are the same numbers.
    ([sum] and [mean] are left out: they are added up in row order.)
    (The row sequence is an array: fewer than [2^32] rows.) *)
Theorem X5_row_order (data data' : list row) (columns : list string) (column : string) :
  Permutation data data' ->
  Z.of_nat (List.length data) < 2 ^ 32 ->
  match calculateNumericStats data columns !! column,
        calculateNumericStats data' columns !! column with
  | Some r, Some r' => same_order_statistics r r'
  | None, None => True
  | _, _ => False
  end.
Proof.
  intros P Hb. rewrite !calculateNumericStats_lookup.
  pose proof (numeric_values_Permutation data data' column P) as PV.
  pose proof (Permutation_length PV) as L.
  destruct (decide (In column columns /\ (0 < List.length (numeric_values data column))%nat))
    as [[I Hl] | H].
  - rewrite decide_True by (split; [exact I | lia]).
    apply column_stats_Permutation.
    + apply length_pos_nonempty, Hl.
    + apply numeric_values_no_nan.
    + pose proof (numeric_values_length data column). lia.
    + exact PV.
  - rewrite decide_False; [exact Logic.I|].
    intros [I Hl]. apply H. split; [exact I | lia].
Qed.

Lemma X5_witness :
  match calculateNumericStats data_one_to_five ["x"] !! "x",
        calculateNumericStats data_five_to_one ["x"] !! "x" with
  | Some r, Some r' => same_order_statistics r r'
  | None, None => True
  | _, _ => False
  end.
Proof.
  apply (X5_row_order data_one_to_five data_five_to_one ["x"] "x").
  - change data_five_to_one with (rev data_one_to_five). apply Permutation_rev.
  - reflexivity.
Defined.

(** X6. The percentiles are quantiles of the collected values, without
    interpolation: at least half of the values are at most [median] and
    at least half are at least [median]; at least a quarter are at most
    [q1] and at least three quarters are at least [q1]; at least three
    quarters are at most [q3] and at least a quarter are at least [q3].
    (The row sequence is an array: fewer than [2^32] rows.) *)
Theorem X6_quantile_ranks (data : list row) (columns : list string) (column : string)
        (r : Stats.t) :
  calculateNumericStats data columns !! column = Some r ->
  Z.of_nat (List.length data) < 2 ^ 32 ->
  (Stats.count r <= 2 * count_le (Stats.median r) (numeric_values data column))%nat /\
  (Stats.count r <= 2 * count_ge (Stats.median r) (numeric_values data column))%nat /\
  (Stats.count r <= 4 * count_le (Stats.q1 r) (numeric_values data column))%nat /\
  (3 * Stats.count r <= 4 * count_ge (Stats.q1 r) (numeric_values data column))%nat /\
  (3 * Stats.count r <= 4 * count_le (Stats.q3 r) (numeric_values data column))%nat /\
  (Stats.count r <= 4 * count_ge (Stats.q3 r) (numeric_values data column))%nat.
Proof.
  intros H Hb. rewrite calculateNumericStats_lookup in H.
  destruct (decide _) as [[I L] |]; [|discriminate]. injection H as <-.
  set (values := numeric_values data column) in *.
  change (Stats.count (column_stats values)) with (List.length values).
  assert (N : no_nan values) by apply numeric_values_no_nan.
  assert (Hne : values <> []) by (apply length_pos_nonempty, L).
  assert (Hb' : Z.of_nat (List.length values) < 2 ^ 32).
  { pose proof (numeric_values_length data column). fold values in H. lia. }
  destruct (column_stats_percentiles values Hne Hb') as (-> & -> & ->).
  pose proof (percentile_index_in_range _ L) as R.
  destruct (sort_ranks values (List.length values / 2) N ltac:(lia)) as [M1 M2].
  destruct (sort_ranks values (List.length values / 4) N ltac:(lia)) as [A1 A2].
  destruct (sort_ranks values (3 * List.length values / 4) N ltac:(lia)) as [B1 B2].
  pose proof (Nat.div_mod_eq (List.length values) 2).
  pose proof (Nat.mod_upper_bound (List.length values) 2).
  pose proof (Nat.div_mod_eq (List.length values) 4).
  pose proof (Nat.mod_upper_bound (List.length values) 4).
  pose proof (Nat.div_mod_eq (3 * List.length values) 4).
  pose proof (Nat.mod_upper_bound (3 * List.length values) 4).
  repeat apply conj; lia.
Qed.

Lemma X6_witness :
  (5 <= 2 * count_le 3 (numeric_values data_one_to_five "x"))%nat /\
  (5 <= 2 * count_ge 3 (numeric_values data_one_to_five "x"))%nat /\
  (5 <= 4 * count_le 2 (numeric_values data_one_to_five "x"))%nat /\
  (3 * 5 <= 4 * count_ge 2 (numeric_values data_one_to_five "x"))%nat /\
  (3 * 5 <= 4 * count_le 4 (numeric_values data_one_to_five "x"))%nat /\
  (5 <= 4 * count_ge 4 (numeric_values data_one_to_five "x"))%nat.
Proof.
  apply (X6_quantile_ranks data_one_to_five ["x"] "x"
           {| Stats.count := 5; Stats.mean := 3; Stats.min := 1; Stats.max := 5;
              Stats.sum := 15; Stats.median := 3; Stats.q1 := 2; Stats.q3 := 4 |}).
  - vm_compute. reflexivity.
  - reflexivity.
Defined.

(** X7. When no value of a column parses to an infinity, neither the
    [sum] nor the [mean] of its record is [NaN]: an overflow gives an
    infinity, and nothing else can go wrong.
    (The row sequence is an array: fewer than [2^32] rows.) *)
Theorem X7_finite_sum_mean (data : list row) (columns : list string) (column : string)
        (r : Stats.t) :
  calculateNumericStats data columns !! column = Some r ->
  Z.of_nat (List.length data) < 2 ^ 32 ->
  (forall row, In row data -> is_infinity (parseFloat (get row column)) = false) ->
  is_nan (Stats.sum r) = false /\ is_nan (Stats.mean r) = false.
Proof.
  intros H Hb Fin. rewrite calculateNumericStats_lookup in H.
  destruct (decide _) as [[I L] |]; [|discriminate]. injection H as <-.
  apply column_stats_finite.
  - apply length_pos_nonempty, L.
  - pose proof (numeric_values_length data column). lia.
  - apply List.Forall_forall. intros v Iv.
    apply numeric_values_In in Iv as (N & row & Ir & ->).
    unfold is_finite. rewrite N, (Fin row Ir). reflexivity.
Qed.

Lemma X7_witness :
  is_nan (Stats.sum (column_stats (numeric_values data_one_to_five "x"))) = false /\
  is_nan (Stats.mean (column_stats (numeric_values data_one_to_five "x"))) = false.
Proof.
  apply (X7_finite_sum_mean data_one_to_five ["x"] "x").
  - vm_compute. reflexivity.
  - reflexivity.
  - intros row I.
    repeat (destruct I as [<- | I]; [vm_compute; reflexivity|]). destruct I.
Defined.

(** X8. Small columns.  With fewer than four collected values [q1] is
    [min]; with at most four, [q3] is [max]; with at most two, [median]
    is [max]: of two values the median is the larger one, not their
    mean.  (The row sequence is an array: fewer than [2^32] rows.) *)
Theorem X8_small_columns (data : list row) (columns : list string) (column : string)
        (r : Stats.t) :
  calculateNumericStats data columns !! column = Some r ->
  Z.of_nat (List.length data) < 2 ^ 32 ->
  ((Stats.count r < 4)%nat -> same_number (Stats.q1 r) (Stats.min r)) /\
  ((Stats.count r <= 2)%nat -> same_number (Stats.median r) (Stats.max r)) /\
  ((Stats.count r <= 4)%nat -> same_number (Stats.q3 r) (Stats.max r)).
Proof.
  intros H Hb. rewrite calculateNumericStats_lookup in H.
  destruct (decide _) as [[I L] |]; [|discriminate]. injection H as <-.
  set (values := numeric_values data column) in *.
  assert (N : no_nan values) by apply numeric_values_no_nan.
  assert (Hne : values <> []) by (apply length_pos_nonempty, L).
  assert (Hb' : Z.of_nat (List.length values) < 2 ^ 32).
  { pose proof (numeric_values_length data column). fold values in H. lia. }
  destruct (column_stats_percentiles values Hne Hb') as (Em & E1 & E3).
  destruct (Math_min_spec values Hne N) as [Imin _].
  destruct (Math_max_spec values Hne N) as [Imax _].
  pose proof (sort_head_min values Hne N) as Hmin.
  pose proof (sort_last_max values Hne N) as Hmax.
  unfold same_number. rewrite Em, E1, E3.
  change (Stats.count (column_stats values)) with (List.length values).
  change (Stats.min (column_stats values)) with (Math_min values).
  change (Stats.max (column_stats values)) with (Math_max values).
  assert (Nmin : is_nan (Math_min values) = false) by (apply (no_nan_In values); assumption).
  assert (Nmax : is_nan (Math_max values) = false) by (apply (no_nan_In values); assumption).
  split; [|split]; intros S.
  - replace (List.length values / 4)%nat with 0%nat
      by (symmetry; apply Nat.div_small; exact S).
    rewrite eqb_ford; [apply Z.eqb_eq, Hmin | apply sort_nth_no_nan; [exact N | lia] | exact Nmin].
  - replace (List.length values / 2)%nat with (List.length values - 1)%nat.
    + rewrite eqb_ford;
        [apply Z.eqb_eq, Hmax | apply sort_nth_no_nan; [exact N | lia] | exact Nmax].
    + destruct (List.length values) as [| [| [| n]]]; [lia | reflexivity | reflexivity | lia].
  - replace (3 * List.length values / 4)%nat with (List.length values - 1)%nat.
    + rewrite eqb_ford;
        [apply Z.eqb_eq, Hmax | apply sort_nth_no_nan; [exact N | lia] | exact Nmax].
    + destruct (List.length values) as [| [| [| [| [| n]]]]]; try reflexivity; lia.
Qed.

Lemma X8_witness :
  same_number (Stats.q1 (column_stats (numeric_values data_two_values "x")))
              (Stats.min (column_stats (numeric_values data_two_values "x"))) /\
  same_number (Stats.median (column_stats (numeric_values data_two_values "x")))
              (Stats.max (column_stats (numeric_values data_two_values "x"))) /\
  same_number (Stats.q3 (column_stats (numeric_values data_two_values "x")))
              (Stats.max (column_stats (numeric_values data_two_values "x"))).
Proof.
  destruct (X8_small_columns data_two_values ["x"] "x"
              (column_stats (numeric_values data_two_values "x")))
    as (H1 & H2 & H3).
  - vm_compute. reflexivity.
  - reflexivity.
  - split; [apply H1; vm_compute; lia | split; [apply H2 | apply H3]; vm_compute; lia].
Defined.

(** X9. Both maps depend on the column list as a set only: two lists
    with the same members, in any order and with any repetition, give
    the same [numericStats], and the same [dataTypes] or the same
    failure. *)
Theorem X9_columns_as_set (Date_parse : value -> float) (data : list row)
        (columns columns' : list string) :
  (forall c, In c columns <-> In c columns') ->
  calculateNumericStats data columns = calculateNumericStats data columns' /\
  inferDataTypes Date_parse data columns = inferDataTypes Date_parse data columns'.
Proof.
  intros S. split.
  - apply map_eq. intros c. rewrite !calculateNumericStats_lookup.
    destruct (decide (In c columns /\ _)) as [[I L] | H].
    + rewrite decide_True; [reflexivity|]. split; [apply S, I | exact L].
    + rewrite decide_False; [reflexivity|]. intros [I L]. apply H. split; [apply S, I | exact L].
  - destruct (inferDataTypes Date_parse data columns) as [dt | e] eqn:H.
    + apply inferDataTypes_inv in H as [T H].
      destruct (inferDataTypes_total Date_parse data columns') as [dt' H'].
      { intros c I. apply T, S, I. }
      rewrite H'. f_equal. apply inferDataTypes_inv in H' as [_ H'].
      apply map_eq. intros c. rewrite H, H'.
      destruct (decide (In c columns)) as [I | I].
      * rewrite decide_True by (apply S, I). reflexivity.
      * rewrite decide_False; [reflexivity|]. intros I'. apply I, S, I'.
    + apply inferDataTypes_throw_inv in H as (-> & c & I & E).
      symmetry. apply (inferDataTypes_throw Date_parse data columns' c); [apply S, I | exact E].
Qed.

Lemma X9_witness :
  calculateNumericStats sample_rows ["age"; "name"; "age"]
  = calculateNumericStats sample_rows ["name"; "age"] /\
  inferDataTypes Date_parse_iso_only sample_rows ["age"; "name"; "age"]
  = inferDataTypes Date_parse_iso_only sample_rows ["name"; "age"].
Proof.
  apply (X9_columns_as_set Date_parse_iso_only sample_rows).
  intros c. simpl. tauto.
Defined.

Section RouteProperties.

Variable path_extname : string -> string.
Variable Date_parse : value -> float.
Variable XLSX_load : string -> completion (list row).
Variable CSV_events : string -> list stream_event.

(** X10. The file filter and the handler agree on the file types.  For
    an upload the filter accepts, the handler runs an analysis: it never
    answers ['Unsupported file format'], and a response has status 200 or
    500.  For an upload the filter does not accept, the handler runs no
    analysis: it removes the file and answers 400
    ['Unsupported file format']. *)
Theorem X10_filter_and_route (f : file) (w : world) :
  (fileFilter path_extname (originalname f) = Accept ->
   forall r,
     fst (upload_handler path_extname Date_parse XLSX_load CSV_events (Some f) w)
     = Responded r ->
     r <> unsupported_response /\ (status r = 200 \/ status r = 500)%N) /\
  (fileFilter path_extname (originalname f) <> Accept ->
   path f ∈ files w ->
   upload_handler path_extname Date_parse XLSX_load CSV_events (Some f) w
   = (Responded unsupported_response, without (path f) w)).
Proof.
  split.
  - intros A r H. rewrite (upload_handler_accepted _ _ _ _ f w A) in H.
    destruct (String.eqb _ ".csv").
    + destruct (analyzeCSV _ _) as [| a | e | e]; try discriminate.
      * injection H as <-. split; [discriminate | left; reflexivity].
      * rewrite catch_block_responds in H. injection H as <-.
        split; [discriminate | right; reflexivity].
    + destruct (analyzeExcel _ _ _) as [a | e].
      * injection H as <-. split; [discriminate | left; reflexivity].
      * rewrite catch_block_responds in H. injection H as <-.
        split; [discriminate | right; reflexivity].
  - intros A I. rewrite (upload_handler_other _ _ _ _ f w A). unfold unlinkSync, existsSync.
    rewrite bool_decide_eq_true_2 by exact I. reflexivity.
Qed.

(** X11. The handler and the disk.  A run of the handler on an upload
    creates no file and removes no file but the upload.  When it
    responds, the pending timers fire without raising, and after them
    the upload is gone: removed at once on a failure, by the timer after
    a success.  When it does not respond, it leaves the disk and the
    timers as they were: the upload stays. *)
Theorem X11_upload_cleanup (f : file) (w : world) :
  (forall p,
      p ∈ files (snd (upload_handler path_extname Date_parse XLSX_load CSV_events (Some f) w)) ->
      p ∈ files w) /\
  (forall p,
      p ∈ files w -> p <> path f ->
      p ∈ files (snd (upload_handler path_extname Date_parse XLSX_load CSV_events (Some f) w))) /\
  (forall r,
      fst (upload_handler path_extname Date_parse XLSX_load CSV_events (Some f) w)
      = Responded r ->
      exists w',
        fire_timers (snd (upload_handler path_extname Date_parse XLSX_load CSV_events
                            (Some f) w)) = Ok w' /\
        (path f ∉ files w') /\ timers w' = []) /\
  ((forall r,
       fst (upload_handler path_extname Date_parse XLSX_load CSV_events (Some f) w)
       <> Responded r) ->
   snd (upload_handler path_extname Date_parse XLSX_load CSV_events (Some f) w) = w).
Proof.
  destruct (upload_handler_cases path_extname Date_parse XLSX_load CSV_events f w)
    as [[a ->] | [[error ->] | [[I ->] | [-> | [error ->]]]]]; cbn [fst snd].
  - split; [|split; [|split]].
    + intros p H. exact H.
    + intros p H _. exact H.
    + intros r _. rewrite fire_timers_Ok. eexists. split; [reflexivity|].
      cbn [files timers setTimeout_cleanup]. split; [|reflexivity].
      rewrite elem_of_difference, elem_of_list_to_set, elem_of_app, list_elem_of_singleton.
      intros [_ H]. apply H. right. reflexivity.
    + intros H. exfalso. exact (H _ eq_refl).
  - split; [|split; [|split]].
    + intros p H. cbn [files without] in H. apply elem_of_difference in H as [H _]. exact H.
    + intros p H N. cbn [files without]. apply elem_of_difference. split; [exact H|].
      rewrite elem_of_singleton. exact N.
    + intros r _. rewrite fire_timers_Ok. eexists. split; [reflexivity|].
      cbn [files timers without]. split; [|reflexivity].
      rewrite !elem_of_difference, elem_of_singleton. intros [[_ H] _]. apply H. reflexivity.
    + intros H. exfalso. exact (H _ eq_refl).
  - split; [|split; [|split]].
    + intros p H. cbn [files without] in H. apply elem_of_difference in H as [H _]. exact H.
    + intros p H N. cbn [files without]. apply elem_of_difference. split; [exact H|].
      rewrite elem_of_singleton. exact N.
    + intros r _. rewrite fire_timers_Ok. eexists. split; [reflexivity|].
      cbn [files timers without]. split; [|reflexivity].
      rewrite !elem_of_difference, elem_of_singleton. intros [[_ H] _]. apply H. reflexivity.
    + intros H. exfalso. exact (H _ eq_refl).
  - split; [|split; [|split]]; [auto | auto | discriminate | reflexivity].
  - split; [|split; [|split]]; [auto | auto | discriminate | reflexivity].
Qed.


(** X13. An upload the file filter refuses.  The error the filter
    creates, given to the error-handling middleware, is answered with
    status 500, not 400, and the body [{error: 'Invalid file type. Please
    upload CSV or Excel files.'}]; the client shows that message. *)
Theorem X13_refused_upload (name : string) (error : route_error) :
  fileFilter path_extname name = Refuse error ->
  error_middleware error = invalid_type_response /\
  shown_message (error_middleware error)
  = "Invalid file type. Please upload CSV or Excel files.".
Proof.
  intros H. apply fileFilter_Refuse in H as ->. split; reflexivity.
Qed.

(** X14. What the client shows for a response of the handler that is
    not ok: the [error] property of the body, which is one of three fixed
    texts.  The [details] of a failed analysis, the message of the error,
    are sent but never shown. *)
Theorem X14_client_message (req_file : option file) (w : world) (r : response) :
  fst (upload_handler path_extname Date_parse XLSX_load CSV_events req_file w)
  = Responded r ->
  response_ok r = false ->
  errorData_error (json r) = Some (shown_message r) /\
  (shown_message r = "No file uploaded" \/
   shown_message r = "Unsupported file format" \/
   shown_message r = "Failed to analyze file").
Proof.
  intros H K. destruct req_file as [f |].
  - destruct (upload_handler_cases path_extname Date_parse XLSX_load CSV_events f w)
      as [[a E] | [[error E] | [[I E] | [E | [error E]]]]];
      rewrite E in H; cbn [fst] in H; try discriminate; injection H as <-.
    + discriminate.
    + split; [reflexivity | right; right; reflexivity].
    + split; [reflexivity | right; left; reflexivity].
  - injection H as <-. split; [reflexivity | left; reflexivity].
Qed.

End RouteProperties.

Lemma X10_witness :
  (analysis_response people_csv
     (full_result sample_rows ["name"; "age"]
        (<["age" := number]> (<["name" := string_]> ∅)))
   <> unsupported_response /\
   (status (analysis_response people_csv
              (full_result sample_rows ["name"; "age"]
                 (<["age" := number]> (<["name" := string_]> ∅)))) = 200 \/
    status (analysis_response people_csv
              (full_result sample_rows ["name"; "age"]
                 (<["age" := number]> (<["name" := string_]> ∅)))) = 500)%N) /\
  upload_handler extname_of_examples Date_parse_iso_only sample_loader sample_csv_events
    (Some notes_txt) sample_world
  = (Responded unsupported_response, without (path notes_txt) sample_world).
Proof.
  split.
  - apply (proj1 (X10_filter_and_route extname_of_examples Date_parse_iso_only sample_loader
                    sample_csv_events people_csv sample_world)).
    + reflexivity.
    + vm_compute. reflexivity.
  - apply (proj2 (X10_filter_and_route extname_of_examples Date_parse_iso_only sample_loader
                    sample_csv_events notes_txt sample_world)).
    + vm_compute. discriminate.
    + apply (bool_decide_eq_true_1 (path notes_txt ∈ files sample_world)).
      vm_compute. reflexivity.
Defined.

Lemma X11_witness :
  exists w',
    fire_timers (snd (upload_handler extname_of_examples Date_parse_iso_only failing_loader
                        sample_csv_events (Some book_xlsx) sample_world)) = Ok w' /\
    (path book_xlsx ∉ files w') /\ timers w' = [].
Proof.
  apply (proj1 (proj2 (proj2 (X11_upload_cleanup extname_of_examples Date_parse_iso_only
                                failing_loader sample_csv_events book_xlsx sample_world)))
           (failure_response "File is password-protected")).
  vm_compute. reflexivity.
Defined.


Lemma X13_witness :
  error_middleware (PlainError "Invalid file type. Please upload CSV or Excel files.")
  = invalid_type_response /\
  shown_message
    (error_middleware (PlainError "Invalid file type. Please upload CSV or Excel files."))
  = "Invalid file type. Please upload CSV or Excel files.".
Proof.
  apply (X13_refused_upload extname_of_examples "notes.txt").
  reflexivity.
Defined.

Lemma X14_witness :
  errorData_error (json (failure_response "File is password-protected"))
  = Some (shown_message (failure_response "File is password-protected")) /\
  (shown_message (failure_response "File is password-protected") = "No file uploaded" \/
   shown_message (failure_response "File is password-protected") = "Unsupported file format" \/
   shown_message (failure_response "File is password-protected") = "Failed to analyze file").
Proof.
  apply (X14_client_message extname_of_examples Date_parse_iso_only failing_loader
           sample_csv_events (Some book_xlsx) sample_world).
  - vm_compute. reflexivity.
  - reflexivity.
Defined.

(** X15. The stored file name determines the time and the original
    name: two uploads get the same stored name only when they have the
    same original name and arrive in the same millisecond.  (The clock
    gives a time value that is not negative: it prints as its decimal
    digits.) *)
Theorem X15_filename_injective (now now' : N) (originalname originalname' : string) :
  (now < 10 ^ 21)%N -> (now' < 10 ^ 21)%N ->
  filename now originalname = filename now' originalname' ->
  now = now' /\ originalname = originalname'.
Proof.
  unfold filename, ToString_N. intros _ _ H.
  change ("-" ++ originalname)%string with (String "-" originalname) in H.
  change ("-" ++ originalname')%string with (String "-" originalname') in H.
  apply string_of_uint_dash in H as [H ->]. split; [|reflexivity].
  apply Unsigned.to_uint_inj, H.
Qed.

Lemma X15_witness :
  1700000000000%N = 1700000000000%N /\ "people.csv" = "people.csv".
Proof.
  apply (X15_filename_injective 1700000000000 1700000000000 "people.csv" "people.csv").
  - reflexivity.
  - reflexivity.
  - reflexivity.
Defined.

(** X16. The check of the client lets through every file the file
    filter of the server accepts, whenever the extension [path.extname]
    gives is the end of the file name: the client refuses no upload the
    server would take. *)
Theorem X16_client_check (path_extname : string -> string) (name stem : string) :
  name = (stem ++ path_extname name)%string ->
  fileFilter path_extname name = Accept ->
  client_accepts name = true.
Proof.
  intros E A. apply fileFilter_Accept in A.
  assert (L : toLowerCase name
              = (toLowerCase stem ++ toLowerCase (path_extname name))%string).
  { rewrite <- toLowerCase_app, <- E. reflexivity. }
  unfold client_accepts. rewrite L.
  destruct A as [-> | [-> | ->]]; rewrite endsWith_append.
  - reflexivity.
  - apply orb_true_iff. left. apply orb_true_r.
  - apply orb_true_r.
Qed.

Lemma X16_witness : client_accepts "Book.XLSX" = true.
Proof.
  apply (X16_client_check extname_of_examples "Book.XLSX" "Book").
  - reflexivity.
  - reflexivity.
Defined.

(** X17. Blank cells.  A cell that is empty or holds white space only
    is never counted by the statistics; as the sample of its column it
    gives the type [date] or [string], as [Date.parse] decides, never
    [number], [boolean] or [unknown]; and a column of such cells has no
    statistics. *)
Theorem X17_blank_cells (Date_parse : value -> float) (s : string) :
  blank s ->
  is_nan (parseFloat (VStr s)) = true /\
  (inferType Date_parse (VStr s) = Normal date \/
   inferType Date_parse (VStr s) = Normal string_) /\
  (forall data columns column,
      (forall r, In r data -> get r column = VStr s) ->
      calculateNumericStats data columns !! column = None).
Proof.
  intros B. pose proof (blank_parseFloat s B) as P.
  destruct (blank_not_boolean s B) as [T F].
  split; [rewrite P; reflexivity|]. split.
  - unfold inferType, looks_boolean. rewrite P.
    change (isNaN nan) with true. cbn [negb andb typeof_boolean call_toLowerCase bind].
    rewrite T. cbn [bind]. rewrite F.
    destruct (negb (isNaN (Date_parse (VStr s)))); [left | right]; reflexivity.
  - intros data columns column H. rewrite calculateNumericStats_lookup.
    rewrite decide_False; [reflexivity|]. intros [_ L].
    apply length_pos_nonempty, numeric_values_nonempty in L as (r & I & N).
    rewrite (H r I), P in N. discriminate.
Qed.

Lemma X17_witness :
  is_nan (parseFloat (VStr "  ")) = true /\
  (inferType Date_parse_iso_only (VStr "  ") = Normal date \/
   inferType Date_parse_iso_only (VStr "  ") = Normal string_) /\
  (forall data columns column,
      (forall r, In r data -> get r column = VStr "  ") ->
      calculateNumericStats data columns !! column = None).
Proof.
  apply (X17_blank_cells Date_parse_iso_only "  ").
  reflexivity.
Defined.

(** X18. A column with a single collected value [v]: [count] is 1,
    [min], [max], [median], [q1] and [q3] are [v], and [sum] and [mean]
    are the same number as [v] ([0 + v] and [v / 1] are exact). *)
Theorem X18_single_value (data : list row) (columns : list string) (column : string)
        (r : Stats.t) (v : float) :
  calculateNumericStats data columns !! column = Some r ->
  numeric_values data column = [v] ->
  Stats.count r = 1%nat /\
  same_number (Stats.sum r) v /\ same_number (Stats.mean r) v /\
  Stats.min r = v /\ Stats.max r = v /\
  Stats.median r = v /\ Stats.q1 r = v /\ Stats.q3 r = v.
Proof.
  intros H E. rewrite calculateNumericStats_lookup in H.
  destruct (decide _) as [[I L] |]; [|discriminate]. injection H as <-.
  pose proof (numeric_values_no_nan data column) as N. rewrite E in *.
  assert (Nv : is_nan v = false) by (apply (no_nan_In [v]); [exact N | left; reflexivity]).
  destruct (single_value_sum_mean v Nv) as [Hs Hm].
  destruct (Math_min_spec [v] ltac:(discriminate) N) as [[Imin | []] _].
  destruct (Math_max_spec [v] ltac:(discriminate) N) as [[Imax | []] _].
  destruct (column_stats_percentiles [v] ltac:(discriminate) ltac:(reflexivity))
    as (Em & E1 & E3).
  repeat apply conj; try assumption; try reflexivity; symmetry; assumption.
Qed.

Lemma X18_witness :
  Stats.count (column_stats (numeric_values data_single "x")) = 1%nat /\
  same_number (Stats.sum (column_stats (numeric_values data_single "x"))) 7.5 /\
  same_number (Stats.mean (column_stats (numeric_values data_single "x"))) 7.5 /\
  Stats.min (column_stats (numeric_values data_single "x")) = 7.5%float /\
  Stats.max (column_stats (numeric_values data_single "x")) = 7.5%float /\
  Stats.median (column_stats (numeric_values data_single "x")) = 7.5%float /\
  Stats.q1 (column_stats (numeric_values data_single "x")) = 7.5%float /\
  Stats.q3 (column_stats (numeric_values data_single "x")) = 7.5%float.
Proof.
  apply (X18_single_value data_single ["x"] "x").
  - vm_compute. reflexivity.
  - vm_compute. reflexivity.
Defined.

(** X19. The sum of a column of integers is exact: when every
    collected value is an integer and the absolute values add up to less
    than [2^53], [sum] is the integer total, whatever the order of the
    rows: no rounding occurs. *)
Theorem X19_integer_sum (data : list row) (columns : list string) (column : string)
        (r : Stats.t) (ns : list Z) :
  calculateNumericStats data columns !! column = Some r ->
  Forall2 (fun v n => integer_value v = Some n) (numeric_values data column) ns ->
  sum_abs ns < 2 ^ 53 ->
  integer_value (Stats.sum r) = Some (sum_Z ns).
Proof.
  intros H F Hb. rewrite calculateNumericStats_lookup in H.
  destruct (decide _) as [[I L] |]; [|discriminate]. injection H as <-.
  apply reduce_sum_integers; assumption.
Qed.

Lemma X19_witness :
  integer_value (Stats.sum (column_stats (numeric_values data_one_to_five "x")))
  = Some (sum_Z [3; 1; 2; 5; 4]).
Proof.
  apply (X19_integer_sum data_one_to_five ["x"] "x").
  - vm_compute. reflexivity.
  - replace (numeric_values data_one_to_five "x") with [3; 1; 2; 5; 4]%float
      by (vm_compute; reflexivity).
    repeat constructor.
  - reflexivity.
Defined.




